(** * Extismx C/C++ plugin development kit: model and verified properties

    The development embeds
    - [cpp-pdk/extism_pdk.h]: the host imports, the [Memory] ownership
      wrapper, [HttpResponse] and the static [Host] facade;
    - [cpp-pdk/hello_plugin.cpp] and [cpp-pdk/hello_plugin.c]: the two
      example entry points built on that header;
    - [c-pdk/hello_plugin.c]: the example built on the older C header.

    Guest code is a program over the host imports: a tree of calls whose
    continuations receive the host's answers.  A host is any state machine
    that answers the calls; running a program on a host yields the trace of
    calls, the outcome (a return value or a thrown exception) and the final
    host state. *)

From Stdlib Require Import ZArith Ascii String.
From stdpp Require Import base option list gmap strings.

(** ** Bytes and string literals *)

(** [uint8_t] buffers, [std::string] and C character arrays are all lists of
    8-bit characters. *)
Abbreviation bytes := (list ascii).

Definition NUL : ascii := "000"%char.
Definition dquote : ascii := "034"%char.

Definition lit (s : string) : bytes := list_ascii_of_string s.
Arguments lit : simpl never.

(** The quoted key [name] (six bytes, quotes included) searched by the example plugins. *)
Definition quoted_name : bytes := dquote :: lit "name" ++ [dquote].

(** ** Host imports ([extern "C"] block of [cpp-pdk/extism_pdk.h])

    Each constructor is one imported function; the index is the type of what
    the guest observes when the call returns: the return value, or the
    contents the host wrote through an out-pointer.  Handles and offsets
    ([uint64_t]) and status codes ([int32_t]) are integers; the code only
    stores them, passes them on and compares them with 0.  Byte counts are
    naturals: every count the code computes is the size of a buffer it
    holds or differs from one by 1 ([input_len + 1], [pos + 1],
    [end - pos - 1] with [pos < end]), so the wrap-around of [uint64_t] and
    [size_t] is not reached.  [malloc] is the C library allocator used by the C example
    ([strdup] allocates through it): its answer tells whether a block was
    obtained.  [extism_input_get] is the input import of the older header
    [c-pdk/extism_pdk.h]: it yields the input buffer with its length.
    [vector_new] is the C++ runtime behind the construction of a non-empty
    [std::vector<uint8_t>] of a given size: its answer is [None] when the
    vector is constructed and [Some what] when the constructor throws
    ([std::length_error] for a size above [max_size()], [std::bad_alloc]
    when the allocation fails), [what] being the exception's message. *)
Inductive call : Type -> Type :=
| extism_input_length : call nat
| extism_input_load_u8 (offset length : nat) : call bytes
| extism_output_set (data : bytes) : call unit
| extism_error_set (data : bytes) : call unit
| extism_alloc (size : nat) : call Z
| extism_free (pointer : Z) : call unit
| extism_length (pointer : Z) : call nat
| extism_store_u8 (pointer : Z) (offset : nat) (data : bytes) : call unit
| extism_load_u8 (pointer : Z) (offset length : nat) : call bytes
| extism_http_request (request : Z) : call (Z * Z)
| extism_http_status_code (response : Z) : call Z
| extism_config_get (key : bytes) : call Z
| extism_var_get (name : bytes) : call Z
| extism_var_set (name value : bytes) : call unit
| extism_log_info (message : bytes) : call unit
| extism_log_debug (message : bytes) : call unit
| extism_log_warn (message : bytes) : call unit
| extism_log_error (message : bytes) : call unit
| malloc (size : nat) : call bool
| extism_input_get : call bytes
| vector_new (size : nat) : call (option bytes).

(** ** Guest programs *)

Inductive prog (R : Type) : Type :=
| Ret (r : R)
| Throw (what : bytes)
| Call {X : Type} (c : call X) (k : X -> prog R).

Arguments Ret {R} r.
Arguments Throw {R} what.
Arguments Call {R X} c k.

Fixpoint bind {A B : Type} (p : prog A) (f : A -> prog B) : prog B :=
  match p with
  | Ret a => f a
  | Throw w => Throw w
  | Call c k => Call c (fun x => bind (k x) f)
  end.

(** [try { p } catch (const std::exception& e) { h e.what() }] *)
Fixpoint try_catch {A : Type} (p : prog A) (h : bytes -> prog A) : prog A :=
  match p with
  | Ret a => Ret a
  | Throw w => h w
  | Call c k => Call c (fun x => try_catch (k x) h)
  end.

Definition perform {X : Type} (c : call X) : prog X := Call c Ret.

Declare Scope prog_scope.
Delimit Scope prog_scope with prog.
Notation "x <- p ;; q" := (bind p (fun x => q))
  (at level 100, p at next level, right associativity) : prog_scope.
Notation "p ;; q" := (bind p (fun _ => q))
  (at level 100, right associativity) : prog_scope.
Local Open Scope prog_scope.

(** ** Hosts, traces and runs *)

Record host : Type := MkHost {
  hstate : Type;
  answer : forall X : Type, call X -> hstate -> X * hstate
}.

Arguments answer h {X} c s.

Inductive event : Type :=
| Ev {X : Type} (c : call X) (x : X).

Inductive outcome (R : Type) : Type :=
| Returned (r : R)
| Thrown (what : bytes).

Arguments Returned {R} r.
Arguments Thrown {R} what.

Record run_result (H : host) (R : Type) : Type := RunResult {
  trace : list event;
  result : outcome R;
  final : hstate H
}.

Arguments RunResult {H R} trace result final.
Arguments trace {H R} r.
Arguments result {H R} r.
Arguments final {H R} r.

Definition after {H : host} {R : Type} (e : event) (r : run_result H R) : run_result H R :=
  RunResult (e :: trace r) (result r) (final r).

Fixpoint run {R : Type} (H : host) (p : prog R) (s : hstate H) : run_result H R :=
  match p with
  | Ret r => RunResult [] (Returned r) s
  | Throw w => RunResult [] (Thrown w) s
  | Call c k =>
      let '(x, s') := answer H c s in
      after (Ev c x) (run H (k x) s')
  end.

(** ** C++ wrapper layer ([namespace extism] of [cpp-pdk/extism_pdk.h]) *)

(** [std::vector<uint8_t> data(len)] followed by a host load into
    [data.data()]: the vector keeps exactly [len] elements, zero where the
    host wrote nothing. *)
Definition vector_filled (len : nat) (written : bytes) : bytes :=
  take len written ++ replicate (len - List.length written) NUL.

(** The construction [std::vector<uint8_t> data(len)] itself: an empty
    vector allocates nothing; a non-empty one is constructed or the
    constructor throws, as the C++ runtime answers. *)
Definition new_vector (len : nat) : prog unit :=
  if Nat.eqb len 0 then Ret tt
  else
    thrown <- perform (vector_new len) ;;
    match thrown with
    | None => Ret tt
    | Some what => Throw what
    end.

(** *** [class Memory] *)
Module Memory.

Record t : Type := Build { offset : Z; length : nat }.

(** [explicit Memory(uint64_t size)] *)
Definition ctor (size : nat) : prog t :=
  off <- perform (extism_alloc size) ;;
  Ret (Build off size).

Definition len (m : t) : prog nat := perform (extism_length (offset m)).

Definition empty (m : t) : prog bool :=
  n <- len m ;; Ret (Nat.eqb n 0).

Definition store (m : t) (data : bytes) (offset_val : nat) : prog unit :=
  perform (extism_store_u8 (offset m) offset_val data).

Definition store_from_start (m : t) (data : bytes) : prog unit := store m data 0.

Definition store_string (m : t) (str : bytes) (offset_val : nat) : prog unit :=
  perform (extism_store_u8 (offset m) offset_val str).

Definition store_string_from_start (m : t) (str : bytes) : prog unit :=
  store_string m str 0.

Definition load (m : t) (offset_val length_val : nat) : prog bytes :=
  new_vector length_val ;;
  written <- perform (extism_load_u8 (offset m) offset_val length_val) ;;
  Ret (vector_filled length_val written).

Definition load_all (m : t) : prog bytes :=
  n <- len m ;; load m 0 n.

Definition to_string (m : t) : prog bytes := load_all m.

(** [~Memory()] *)
Definition dtor (m : t) : prog unit := perform (extism_free (offset m)).

(** [Memory(Memory&& other)]: the new object and what is left in [other]. *)
Definition move_ctor (other : t) : t * t :=
  (Build (offset other) (length other), Build 0 0).

(** [Memory& operator=(Memory&& other)] for two distinct objects
    ([this != &other]): the new [*this] and what is left in [other].
    Assigning an object to itself does nothing. *)
Definition move_assign (this other : t) : prog (t * t) :=
  (if Z.eqb (offset this) 0 then Ret tt else perform (extism_free (offset this))) ;;
  Ret (Build (offset other) (length other), Build 0 0).

(** [static Memory from_string(const std::string& str)].  The local [mem]
    is returned by name.  When the compiler elides the copy ([elide]), [mem]
    is the result itself; otherwise the result is move-constructed from
    [mem], and [mem], by then moved-from, is destroyed. *)
Definition from_string (elide : bool) (str : bytes) : prog t :=
  mem <- ctor (List.length str) ;;
  store_string_from_start mem str ;;
  if elide then Ret mem
  else
    let moved := move_ctor mem in
    dtor moved.2 ;;
    Ret moved.1.

End Memory.

(** *** [enum class HttpMethod], [struct HttpRequest] *)

(** A value of the enumeration is a value of its underlying type [int]: the
    seven enumerators are 0 to 6, and a cast can produce any other value. *)
Definition HttpMethod : Type := Z.

Definition Post : HttpMethod := 1%Z.
Definition Put : HttpMethod := 2%Z.
Definition Patch : HttpMethod := 4%Z.
Definition Head : HttpMethod := 5%Z.
Definition Options : HttpMethod := 6%Z.

Definition http_method_to_string (method : HttpMethod) : bytes :=
  match method with
  | 0%Z => lit "GET"
  | 1%Z => lit "POST"
  | 2%Z => lit "PUT"
  | 3%Z => lit "DELETE"
  | 4%Z => lit "PATCH"
  | 5%Z => lit "HEAD"
  | 6%Z => lit "OPTIONS"
  | _ => lit "GET"
  end.

(** [headers] lists the entries of the [std::map] in its iteration order
    (ascending keys), which is the order the range-for visits them. *)
Record HttpRequest : Type := {
  method : HttpMethod;
  url : bytes;
  headers : list (bytes * bytes);
  body : option bytes
}.

(** *** [class HttpResponse] *)
Module HttpResponse.

Record t : Type := Build { ptr : Z }.

Definition status (r : t) : prog Z := perform (extism_http_status_code (ptr r)).

Definition body (r : t) : prog bytes :=
  body_ptr <- perform (extism_var_get (lit "response:body")) ;;
  if Z.eqb body_ptr 0 then Ret []
  else
    len <- perform (extism_length body_ptr) ;;
    new_vector len ;;
    written <- perform (extism_load_u8 body_ptr 0 len) ;;
    perform (extism_free body_ptr) ;;
    Ret (vector_filled len written).

Definition body_string (r : t) : prog bytes := body r.

Definition header (r : t) (name : bytes) : prog (option bytes) :=
  let header_var := lit "response:header:" ++ name in
  header_ptr <- perform (extism_var_get header_var) ;;
  if Z.eqb header_ptr 0 then Ret None
  else
    len <- perform (extism_length header_ptr) ;;
    new_vector len ;;
    written <- perform (extism_load_u8 header_ptr 0 len) ;;
    perform (extism_free header_ptr) ;;
    Ret (Some (vector_filled len written)).

Definition dtor (r : t) : prog unit := perform (extism_free (ptr r)).

(** [explicit HttpResponse(uint64_t ptr)] *)
Definition ctor (ptr : Z) : t := Build ptr.

(** [HttpResponse(HttpResponse&& other)]: the new object and what is left
    in [other]. *)
Definition move_ctor (other : t) : t * t := (Build (ptr other), Build 0).

(** [HttpResponse& operator=(HttpResponse&& other)] for two distinct
    objects: the new [*this] and what is left in [other]. *)
Definition move_assign (this other : t) : prog (t * t) :=
  (if Z.eqb (ptr this) 0 then Ret tt else perform (extism_free (ptr this))) ;;
  Ret (Build (ptr other), Build 0).

End HttpResponse.

(** *** [class Host] *)
Module Host.

Definition input : prog bytes :=
  len <- perform extism_input_length ;;
  new_vector len ;;
  written <- perform (extism_input_load_u8 0 len) ;;
  Ret (vector_filled len written).

Definition input_string : prog bytes := input.

Definition output (data : bytes) : prog unit := perform (extism_output_set data).

Definition output_string (str : bytes) : prog unit := perform (extism_output_set str).

Definition error (message : bytes) : prog unit := perform (extism_error_set message).

Definition config (key : bytes) : prog (option bytes) :=
  ptr <- perform (extism_config_get key) ;;
  if Z.eqb ptr 0 then Ret None
  else
    len <- perform (extism_length ptr) ;;
    new_vector len ;;
    written <- perform (extism_load_u8 ptr 0 len) ;;
    perform (extism_free ptr) ;;
    Ret (Some (vector_filled len written)).

Definition var_get (name : bytes) : prog (option bytes) :=
  ptr <- perform (extism_var_get name) ;;
  if Z.eqb ptr 0 then Ret None
  else
    len <- perform (extism_length ptr) ;;
    new_vector len ;;
    written <- perform (extism_load_u8 ptr 0 len) ;;
    perform (extism_free ptr) ;;
    Ret (Some (vector_filled len written)).

Definition var_get_string (name : bytes) : prog (option bytes) :=
  data_opt <- var_get name ;;
  match data_opt with
  | None => Ret None
  | Some data => Ret (Some data)
  end.

Definition var_set (name value : bytes) : prog unit :=
  perform (extism_var_set name value).

Definition var_set_string (name value : bytes) : prog unit :=
  perform (extism_var_set name value).

Definition log_info (message : bytes) : prog unit := perform (extism_log_info message).
Definition log_debug (message : bytes) : prog unit := perform (extism_log_debug message).
Definition log_warn (message : bytes) : prog unit := perform (extism_log_warn message).
Definition log_error (message : bytes) : prog unit := perform (extism_log_error message).

(** The range-for over [request.headers]. *)
Fixpoint set_headers (hs : list (bytes * bytes)) : prog unit :=
  match hs with
  | [] => Ret tt
  | (key, value) :: rest =>
      let header_name := lit "request:header:" ++ key in
      var_set_string header_name value ;;
      set_headers rest
  end.

Definition http_request (request : HttpRequest) : prog HttpResponse.t :=
  var_set_string (lit "request:method") (http_method_to_string (method request)) ;;
  var_set_string (lit "request:url") (url request) ;;
  set_headers (headers request) ;;
  match body request with
  | Some b => var_set (lit "request:body") b
  | None => Ret tt
  end ;;
  answered <- perform (extism_http_request 0) ;;
  let '(status, response_ptr) := answered in
  if Z.eqb status 0 then Ret (HttpResponse.Build response_ptr)
  else Throw (lit "HTTP request failed").

End Host.

(** ** String primitives used by the example plugins *)

Fixpoint starts_with (pat s : bytes) : bool :=
  match pat, s with
  | [], _ => true
  | _ :: _, [] => false
  | a :: pat', b :: s' => Ascii.eqb a b && starts_with pat' s'
  end.

(** Index of the first occurrence of [pat] in [s]. *)
Fixpoint find_first (pat s : bytes) : option nat :=
  if starts_with pat s then Some 0%nat
  else match s with
       | [] => None
       | _ :: s' => S <$> find_first pat s'
       end.

(** [size_t] results of [std::string::find]: [None] is [std::string::npos],
    which exceeds every string size. *)
Abbreviation size_t := (option nat).
Abbreviation npos := (@None nat).

(** [s.find(pat, pos)] *)
Definition find (s pat : bytes) (pos : size_t) : size_t :=
  match pos with
  | None => None
  | Some p =>
      if Nat.leb p (List.length s) then Nat.add p <$> find_first pat (drop p s)
      else None
  end.

Definition found (r : size_t) : bool :=
  match r with Some _ => true | None => false end.

(** [s.substr(pos, n)]; [std::out_of_range] when [pos > s.size()]. *)
Definition substr (s : bytes) (pos n : nat) : prog bytes :=
  if Nat.leb pos (List.length s) then Ret (take n (drop pos s))
  else Throw (lit "basic_string::substr").

(** The C string held in a character array: the bytes before the first NUL. *)
Fixpoint c_str (buf : bytes) : bytes :=
  match buf with
  | [] => []
  | c :: rest => if Ascii.eqb c NUL then [] else c :: c_str rest
  end.

(** Pointers into a buffer are indices; [NULL] is [None]. *)
Definition strlen (buf : bytes) (p : nat) : nat := List.length (c_str (drop p buf)).

Definition strstr (buf : bytes) (p : nat) (needle : bytes) : option nat :=
  Nat.add p <$> find_first needle (c_str (drop p buf)).

(** [strchr(buf + p, c)] for a character [c] other than NUL. *)
Definition strchr (buf : bytes) (p : nat) (c : ascii) : option nat :=
  Nat.add p <$> find_first [c] (c_str (drop p buf)).

(** [snprintf(dst, size, ...)] where the formatted text is [text]: at most
    [size - 1] bytes are kept, then the terminator. *)
Definition snprintf (size : nat) (text : bytes) : bytes :=
  take (size - 1) text ++ [NUL].

Definition json_open : bytes :=
  lit "{" ++ [dquote] ++ lit "greeting" ++ [dquote] ++ lit ":" ++ [dquote].
Definition json_close : bytes := [dquote] ++ lit "}".

(** ** [cpp-pdk/hello_plugin.cpp] *)
Module HelloCpp.

(** Lines 23-51: the name chosen for an input. *)
Definition name_of (input : bytes) : prog bytes :=
  match input with
  | [] => Ret (lit "World")
  | _ :: _ =>
      if found (find input (lit "{") (Some 0%nat))
         && found (find input quoted_name (Some 0%nat))
      then
        let pos := find input quoted_name (Some 0%nat) in
        let pos := find input (lit ":") pos in
        let pos := find input [dquote] pos in
        match pos with
        | Some pos =>
            match find input [dquote] (Some (pos + 1)%nat) with
            | Some end_ => substr input (pos + 1) (end_ - pos - 1)
            | None => Ret (lit "World")
            end
        | None => Ret (lit "World")
        end
      else Ret input
  end.

Definition hello : prog Z :=
  try_catch
    (Host.log_debug (lit "Hello function called") ;;
     input <- Host.input_string ;;
     name <- name_of input ;;
     let greeting := lit "Hello, " ++ name ++ lit "!" in
     Host.log_info (lit "Created greeting: " ++ greeting) ;;
     let result := json_open ++ greeting ++ json_close in
     Host.output_string result ;;
     Ret 0%Z)
    (fun what =>
       Host.error (lit "Error in hello function: " ++ what) ;;
       Ret 1%Z).

End HelloCpp.

(** ** [cpp-pdk/hello_plugin.c] *)
Module HelloC.

(** [strdup(s)] for the C string at the start of [s]: [None] is a NULL result. *)
Definition strdup (s : bytes) : prog (option bytes) :=
  got <- perform (malloc (strlen s 0 + 1)) ;;
  Ret (if got : bool then Some (c_str s ++ [NUL]) else None).

Definition World : bytes := lit "World" ++ [NUL].

(** Lines 43-78: the name chosen from the NUL-terminated input buffer. *)
Definition name_of (input_len : nat) (input_buf : bytes) : prog (option bytes) :=
  if Nat.ltb 2 input_len
     && Ascii.eqb (nth 0 input_buf NUL) "{"%char
     && found (strstr input_buf 0 quoted_name)
  then
    match strstr input_buf 0 quoted_name with
    | Some name_start =>
        match strchr input_buf name_start ":"%char with
        | Some name_start =>
            match strchr input_buf name_start dquote with
            | Some name_start =>
                let name_start := (name_start + 1)%nat in
                match strchr input_buf name_start dquote with
                | Some name_end =>
                    let name_len := (name_end - name_start)%nat in
                    got <- perform (malloc (name_len + 1)) ;;
                    if got : bool
                    then Ret (Some (take name_len (drop name_start input_buf) ++ [NUL]))
                    else strdup World
                | None => strdup World
                end
            | None => strdup World
            end
        | None => strdup World
        end
    | None => strdup World
    end
  else strdup input_buf.

(** Lines 83-104, reached on every path that does not return early. *)
Definition finish (name : option bytes) : prog Z :=
  match name with
  | None =>
      perform (extism_error_set (lit "Memory allocation failed")) ;;
      Ret 1%Z
  | Some name =>
      let greeting_log :=
        snprintf 256 (lit "Created greeting: Hello, " ++ c_str name ++ lit "!") in
      perform (extism_log_info (c_str greeting_log)) ;;
      let result :=
        snprintf 256 (json_open ++ lit "Hello, " ++ c_str name ++ lit "!" ++ json_close) in
      perform (extism_output_set (c_str result)) ;;
      Ret 0%Z
  end.

(** Lines 15-105.  Two assumptions on the host are built in: the input
    length is below [2^64 - 1], so that the [uint64_t] sum [input_len + 1]
    does not wrap to 0, and [extism_input_load_u8] fills the block.  The
    statements about [hello] below are therefore made on the reference host,
    which writes every input byte. *)
Definition hello : prog Z :=
  perform (extism_log_debug (lit "Hello function called")) ;;
  input_len <- perform extism_input_length ;;
  if Nat.eqb input_len 0 then
    name <- strdup World ;;
    finish name
  else
    got <- perform (malloc (input_len + 1)) ;;
    if negb got then
      perform (extism_error_set (lit "Memory allocation failed")) ;;
      Ret 1%Z
    else
      written <- perform (extism_input_load_u8 0 input_len) ;;
      (* bytes of the fresh block that the host leaves unwritten are
         indeterminate in C; they read as NUL here *)
      let input_buf := vector_filled input_len written ++ [NUL] in
      name <- name_of input_len input_buf ;;
      finish name.

End HelloC.

(** ** [c-pdk/hello_plugin.c] *)
Module HelloCPdk.

Definition hello : prog Z :=
  input <- perform extism_input_get ;;
  let input_length := List.length input in
  let name :=
    if Nat.ltb 0 input_length then
      let max_len := if Nat.ltb input_length 255 then input_length else 255%nat in
      take max_len input ++ replicate (256 - max_len) NUL
    else lit "World" ++ [NUL] in
  let output :=
    snprintf 512 (json_open ++ lit "Hello, " ++ c_str name ++ lit "!" ++ json_close) in
  perform (extism_output_set (c_str output)) ;;
  Ret 0%Z.

End HelloCPdk.

(** ** A reference host *)

(** Modelled from the spec: the host runtime, which is not part of the
    sources.  It holds the plugin input, the variable store and the
    configuration (names mapped to byte buffers), and the live memory blocks
    by handle.  A lookup of a missing name answers the zero handle; a lookup
    of a present name answers a fresh non-zero handle to a block holding the
    value.  [rs_http] and [rs_status_code] are what the HTTP primitives
    answer; [rs_heap] tells which calls of the C allocator succeed, by their
    ordinal.  Every length this host reports is the length of a buffer it
    holds, and a vector of that length is always constructed. *)
Record ref_state : Type := RefState {
  rs_input : bytes;
  rs_vars : gmap bytes bytes;
  rs_config : gmap bytes bytes;
  rs_blocks : gmap Z bytes;
  rs_next : positive;
  rs_http : Z * Z;
  rs_status_code : Z;
  rs_heap : nat -> bool;
  rs_mallocs : nat
}.

Definition with_vars (s : ref_state) (vars : gmap bytes bytes) : ref_state :=
  RefState (rs_input s) vars (rs_config s) (rs_blocks s) (rs_next s)
           (rs_http s) (rs_status_code s) (rs_heap s) (rs_mallocs s).

Definition with_blocks (s : ref_state) (blocks : gmap Z bytes) : ref_state :=
  RefState (rs_input s) (rs_vars s) (rs_config s) blocks (rs_next s)
           (rs_http s) (rs_status_code s) (rs_heap s) (rs_mallocs s).

(** A fresh block holding [data]; its handle is never zero. *)
Definition new_block (s : ref_state) (data : bytes) : Z * ref_state :=
  (Zpos (rs_next s),
   RefState (rs_input s) (rs_vars s) (rs_config s)
            (<[Zpos (rs_next s) := data]> (rs_blocks s)) (Pos.succ (rs_next s))
            (rs_http s) (rs_status_code s) (rs_heap s) (rs_mallocs s)).

Definition block (s : ref_state) (pointer : Z) : bytes :=
  default [] (rs_blocks s !! pointer).

Definition lookup_handle (s : ref_state) (value : option bytes) : Z * ref_state :=
  match value with
  | None => (0%Z, s)
  | Some data => new_block s data
  end.

Definition next_malloc (s : ref_state) : bool * ref_state :=
  (rs_heap s (rs_mallocs s),
   RefState (rs_input s) (rs_vars s) (rs_config s) (rs_blocks s) (rs_next s)
            (rs_http s) (rs_status_code s) (rs_heap s) (S (rs_mallocs s))).

Definition ref_answer (X : Type) (c : call X) (s : ref_state) : X * ref_state :=
  match c in call X return X * ref_state with
  | extism_input_length => (List.length (rs_input s), s)
  | extism_input_load_u8 offset length => (take length (drop offset (rs_input s)), s)
  | extism_output_set _ => (tt, s)
  | extism_error_set _ => (tt, s)
  | extism_alloc size => new_block s (replicate size NUL)
  | extism_free pointer => (tt, with_blocks s (delete pointer (rs_blocks s)))
  | extism_length pointer => (List.length (block s pointer), s)
  | extism_store_u8 pointer offset data =>
      let old := block s pointer in
      (tt, with_blocks s
             (<[pointer := take offset old ++ data ++ drop (offset + List.length data) old]>
                (rs_blocks s)))
  | extism_load_u8 pointer offset length => (take length (drop offset (block s pointer)), s)
  | extism_http_request _ => (rs_http s, s)
  | extism_http_status_code _ => (rs_status_code s, s)
  | extism_config_get key => lookup_handle s (rs_config s !! key)
  | extism_var_get name => lookup_handle s (rs_vars s !! name)
  | extism_var_set name value => (tt, with_vars s (<[name := value]> (rs_vars s)))
  | extism_log_info _ => (tt, s)
  | extism_log_debug _ => (tt, s)
  | extism_log_warn _ => (tt, s)
  | extism_log_error _ => (tt, s)
  | malloc _ => next_malloc s
  | extism_input_get => (rs_input s, s)
  | vector_new _ => (None, s)
  end.

Definition ref_host : host := MkHost ref_state ref_answer.

(** A fresh host state for one plugin call on [input]. *)
Definition ref_init (input : bytes) (heap : nat -> bool) : ref_state :=
  RefState input ∅ ∅ ∅ 1%positive (0%Z, 0%Z) 0%Z heap 0.

(** A C allocator that always succeeds. *)
Definition heap_ok : nat -> bool := fun _ => true.

(** A C allocator that never succeeds. *)
Definition heap_exhausted : nat -> bool := fun _ => false.

(** ** Observations on traces *)

(** The data of the last [extism_output_set]: the plugin output. *)
Definition output_data (e : event) : option bytes :=
  match e with
  | Ev c _ => match c with extism_output_set data => Some data | _ => None end
  end.

Definition output_of (tr : list event) : option bytes := last (omap output_data tr).

Definition is_free (o : Z) (e : event) : bool :=
  match e with
  | Ev c _ => match c with extism_free pointer => Z.eqb pointer o | _ => false end
  end.

Definition is_alloc (o : Z) (e : event) : bool :=
  match e with
  | Ev c x =>
      match c in call X return X -> bool with
      | extism_alloc _ => fun off => Z.eqb off o
      | _ => fun _ => false
      end x
  end.

(** How many times [extism_free o] was invoked, and how many times
    [extism_alloc] returned [o]. *)
Definition frees (o : Z) (tr : list event) : nat := List.length (filter (fun e => is_free o e = true) tr).
Definition allocs (o : Z) (tr : list event) : nat := List.length (filter (fun e => is_alloc o e = true) tr).


(** ** Lifetimes of [Memory] objects

    A guest that only constructs, moves and destroys [Memory] objects is a
    sequence of the operations below on objects named by their address.  The
    object store maps the addresses of the live objects to their fields. *)
Inductive mem_op : Type :=
| Construct (a : nat) (size : nat)      (* Memory a(size); *)
| MoveConstruct (a b : nat)             (* Memory a(std::move(b)); *)
| MoveAssign (a b : nat)                (* a = std::move(b); *)
| Destroy (a : nat).                    (* a goes out of scope *)

(** One operation on the object store; [None] when the operation is not one
    a C++ program can perform (it names a dead object, or constructs over a
    live one). *)
Definition exec_op (op : mem_op) (objs : gmap nat Memory.t) : option (prog (gmap nat Memory.t)) :=
  match op with
  | Construct a size =>
      match objs !! a with
      | None => Some (this <- Memory.ctor size ;; Ret (<[a := this]> objs))
      | Some _ => None
      end
  | MoveConstruct a b =>
      match objs !! a, objs !! b with
      | None, Some other =>
          let moved := Memory.move_ctor other in
          Some (Ret (<[a := moved.1]> (<[b := moved.2]> objs)))
      | _, _ => None
      end
  | MoveAssign a b =>
      match objs !! a, objs !! b with
      | Some this, Some other =>
          if decide (a = b) then Some (Ret objs)
          else Some (moved <- Memory.move_assign this other ;;
                     Ret (<[a := moved.1]> (<[b := moved.2]> objs)))
      | _, _ => None
      end
  | Destroy a =>
      match objs !! a with
      | Some this => Some (Memory.dtor this ;; Ret (delete a objs))
      | None => None
      end
  end.

(** A sequence of operations; it stops at the first one that cannot be performed. *)
Fixpoint exec (ops : list mem_op) (objs : gmap nat Memory.t) : prog (gmap nat Memory.t) :=
  match ops with
  | [] => Ret objs
  | op :: rest =>
      match exec_op op objs with
      | Some p => objs' <- p ;; exec rest objs'
      | None => Ret objs
      end
  end.

(** Whether an object holds offset [o] (1) or not (0). *)
Definition holds (o : Z) (m : Memory.t) : nat :=
  if decide (Memory.offset m = o) then 1 else 0.

(** The number of live objects whose [offset] field is [o]. *)
Definition holders (o : Z) (objs : gmap nat Memory.t) : nat :=
  List.length (filter (fun kv => Memory.offset kv.2 = o) (map_to_list objs)).

(** A host that answers every call with zero: in particular its allocator
    returns offset 0. *)
Definition null_answer (X : Type) (c : call X) (s : unit) : X * unit :=
  match c in call X return X * unit with
  | extism_input_length => (0, s)
  | extism_input_load_u8 _ _ => ([], s)
  | extism_output_set _ => (tt, s)
  | extism_error_set _ => (tt, s)
  | extism_alloc _ => (0%Z, s)
  | extism_free _ => (tt, s)
  | extism_length _ => (0, s)
  | extism_store_u8 _ _ _ => (tt, s)
  | extism_load_u8 _ _ _ => ([], s)
  | extism_http_request _ => ((0%Z, 0%Z), s)
  | extism_http_status_code _ => (0%Z, s)
  | extism_config_get _ => (0%Z, s)
  | extism_var_get _ => (0%Z, s)
  | extism_var_set _ _ => (tt, s)
  | extism_log_info _ => (tt, s)
  | extism_log_debug _ => (tt, s)
  | extism_log_warn _ => (tt, s)
  | extism_log_error _ => (tt, s)
  | malloc _ => (false, s)
  | extism_input_get => ([], s)
  | vector_new _ => (None, s)
  end.

Definition null_host : host := MkHost unit null_answer.

(** A handle is constructed, moved into a second one, and both go out of scope. *)
Definition move_then_destroy : list mem_op :=
  [Construct 0 8; MoveConstruct 1 0; Destroy 0; Destroy 1].

(** What the host answered to each [extism_http_request]: the status and
    the response handle it stored. *)
Definition http_answer (e : event) : option (Z * Z) :=
  match e with
  | Ev c x =>
      match c in call X return X -> option (Z * Z) with
      | extism_http_request _ => fun answered => Some answered
      | _ => fun _ => None
      end x
  end.

Definition http_answers (tr : list event) : list (Z * Z) := omap http_answer tr.

(** The call that sets one request header. *)
Definition header_event (kv : bytes * bytes) : event :=
  Ev (extism_var_set (lit "request:header:" ++ kv.1) kv.2) tt.

(** A request with two headers and a body, and one without. *)
Definition sample_request : HttpRequest :=
  {| method := Post;
     url := lit "https://example.com/api";
     headers := [(lit "Accept", lit "*/*"); (lit "X-Id", lit "7")];
     body := Some (lit "payload") |}.

(** A host state whose variable store holds an empty [response:body]. *)
Definition empty_body_state : ref_state :=
  with_vars (ref_init [] heap_ok) {[ lit "response:body" := [] ]}.

(** The greeting document for a name: an object whose single member
    [greeting] is the string [Hello, <name>!]. *)
Definition greeting_json (name : bytes) : bytes :=
  json_open ++ lit "Hello, " ++ name ++ lit "!" ++ json_close.

(** Sample inputs of the example plugins. *)

(** The object whose only member is [name], with value [Bob]. *)
Definition input_bob : bytes :=
  lit "{" ++ quoted_name ++ lit ":" ++ [dquote] ++ lit "Bob" ++ [dquote] ++ lit "}".

(** A member [name] with value [Y], followed by the object with value [X]. *)
Definition input_two_names : bytes :=
  quoted_name ++ lit ":" ++ [dquote] ++ lit "Y" ++ [dquote]
  ++ lit "{" ++ quoted_name ++ lit ":" ++ [dquote] ++ lit "X" ++ [dquote] ++ lit "}".

(** The object with value [Y] after one leading character. *)
Definition input_late_brace : bytes :=
  lit "x{" ++ quoted_name ++ lit ":" ++ [dquote] ++ lit "Y" ++ [dquote] ++ lit "}".

(** Plain text with an embedded NUL byte. *)
Definition input_with_nul : bytes := lit "a" ++ [NUL] ++ lit "b".

(** Plain text of 233 and of 256 bytes. *)
Definition input_233 : bytes := replicate 233 "a"%char.
Definition input_256 : bytes := replicate 256 "a"%char.

(** An object whose [name] member comes second and is cut off inside its
    value, and the object for [Bob] with a space after the colon. *)
Definition input_cut_off : bytes :=
  lit "{" ++ [dquote] ++ lit "id" ++ [dquote] ++ lit ":1,"
  ++ quoted_name ++ lit ":" ++ [dquote] ++ lit "Bob".

Definition input_bob_spaced : bytes :=
  lit "{" ++ quoted_name ++ lit ": " ++ [dquote] ++ lit "Bob" ++ [dquote] ++ lit "}".

(** The largest input length for which [input_len + 1] does not wrap. *)
Definition max_input_len : Z := (2 ^ 64 - 2)%Z.

(** A handle is constructed and then move-assigned to itself. *)
Definition self_assign : list mem_op := [Construct 0 8; MoveAssign 0 0].

(** ** Further observations on traces *)

(** The data of every [extism_output_set] and of every [extism_error_set],
    in call order. *)
Definition outputs (tr : list event) : list bytes := omap output_data tr.

Definition error_data (e : event) : option bytes :=
  match e with
  | Ev c _ => match c with extism_error_set data => Some data | _ => None end
  end.

Definition errors (tr : list event) : list bytes := omap error_data tr.

(** ** Lifetimes of [HttpResponse] objects

    As for [Memory]: a sequence of constructions from a handle, moves and
    destructions on objects named by their address. *)
Inductive resp_op : Type :=
| Wrap (a : nat) (ptr : Z)              (* HttpResponse a(ptr); *)
| MoveConstructResp (a b : nat)         (* HttpResponse a(std::move(b)); *)
| MoveAssignResp (a b : nat)            (* a = std::move(b); *)
| DestroyResp (a : nat).                (* a goes out of scope *)

Definition exec_resp_op (op : resp_op) (objs : gmap nat HttpResponse.t)
  : option (prog (gmap nat HttpResponse.t)) :=
  match op with
  | Wrap a ptr =>
      match objs !! a with
      | None => Some (Ret (<[a := HttpResponse.ctor ptr]> objs))
      | Some _ => None
      end
  | MoveConstructResp a b =>
      match objs !! a, objs !! b with
      | None, Some other =>
          let moved := HttpResponse.move_ctor other in
          Some (Ret (<[a := moved.1]> (<[b := moved.2]> objs)))
      | _, _ => None
      end
  | MoveAssignResp a b =>
      match objs !! a, objs !! b with
      | Some this, Some other =>
          if decide (a = b) then Some (Ret objs)
          else Some (moved <- HttpResponse.move_assign this other ;;
                     Ret (<[a := moved.1]> (<[b := moved.2]> objs)))
      | _, _ => None
      end
  | DestroyResp a =>
      match objs !! a with
      | Some this => Some (HttpResponse.dtor this ;; Ret (delete a objs))
      | None => None
      end
  end.

Fixpoint exec_resp (ops : list resp_op) (objs : gmap nat HttpResponse.t)
  : prog (gmap nat HttpResponse.t) :=
  match ops with
  | [] => Ret objs
  | op :: rest =>
      match exec_resp_op op objs with
      | Some p => objs' <- p ;; exec_resp rest objs'
      | None => Ret objs
      end
  end.

(** How many operations of a sequence wrap the handle [o]. *)
Definition is_wrap (o : Z) (op : resp_op) : bool :=
  match op with Wrap _ ptr => Z.eqb ptr o | _ => false end.

Definition wraps (o : Z) (ops : list resp_op) : nat :=
  List.length (filter (fun op => is_wrap o op = true) ops).

(** The number of live responses whose [ptr] field is [o]. *)
Definition resp_holders (o : Z) (objs : gmap nat HttpResponse.t) : nat :=
  List.length (filter (fun kv => HttpResponse.ptr kv.2 = o) (map_to_list objs)).

(** A response is wrapped, moved into a second one, and both go out of scope. *)
Definition wrap_move_destroy : list resp_op :=
  [Wrap 0 7; MoveConstructResp 1 0; DestroyResp 0; DestroyResp 1].

(** A C allocator whose second call fails. *)
Definition heap_second_fails : nat -> bool := fun n => negb (Nat.eqb n 1).

(** The effect of setting one request header on the reference host. *)
Definition set_header_var (st : ref_state) (kv : bytes * bytes) : ref_state :=
  with_vars st (<[lit "request:header:" ++ kv.1 := kv.2]> (rs_vars st)).

(** ** Exit discipline of the C example *)

(** A step that neither sets the output nor reports an error, and returns. *)
Definition quiet (H : host) {R : Type} (p : prog R) : Prop :=
  forall s : hstate H,
    outputs (trace (run H p s)) = [] /\ errors (trace (run H p s)) = [] /\
    exists r, result (run H p s) = Returned r.

(** The two ways the C example of [cpp-pdk] ends: status 0 with one output,
    cut by the 256-byte result buffer, and no error; or status 1 with the
    allocation error reported and no output. *)
Definition clean_exit {H : host} (r : run_result H Z) : Prop :=
  (result r = Returned 0%Z /\ errors (trace r) = [] /\
   exists name, outputs (trace r) = [c_str (snprintf 256 (greeting_json (c_str name)))]) \/
  (result r = Returned 1%Z /\ outputs (trace r) = [] /\
   errors (trace r) = [lit "Memory allocation failed"]).

(** ** Vector construction on a host *)

(** Whether [std::vector<uint8_t> data(len)] throws on host [H] in state
    [s], and with what message; and the state after the construction was
    attempted. *)
Definition vector_refusal (H : host) (len : nat) (s : hstate H) : option bytes :=
  if Nat.eqb len 0 then None else (answer H (vector_new len) s).1.

Definition after_vector (H : host) (len : nat) (s : hstate H) : hstate H :=
  if Nat.eqb len 0 then s else (answer H (vector_new len) s).2.





(** * Properties *)

(** ** Running programs *)

Section Run.
Context (H : host).

Lemma run_bind {A B : Type} (p : prog A) (f : A -> prog B) (s : hstate H) :
  run H (bind p f) s =
  match result (run H p s) with
  | Returned a =>
      let r' := run H (f a) (final (run H p s)) in
      RunResult (trace (run H p s) ++ trace r') (result r') (final r')
  | Thrown w => RunResult (trace (run H p s)) (Thrown w) (final (run H p s))
  end.
Proof.
  revert s. induction p as [a|w|X c k IH]; intros s; simpl.
  - by destruct (run H (f a) s).
  - done.
  - destruct (answer H c s) as [x s']. rewrite IH. simpl.
    by destruct (result (run H (k x) s')).
Qed.

Lemma run_perform {X : Type} (c : call X) (s : hstate H) :
  run H (perform c) s =
  RunResult [Ev c (answer H c s).1] (Returned (answer H c s).1) (answer H c s).2.
Proof. unfold perform. simpl. by destruct (answer H c s). Qed.

Lemma run_try_catch {A : Type} (p : prog A) (h : bytes -> prog A) (s : hstate H) :
  run H (try_catch p h) s =
  match result (run H p s) with
  | Returned a => run H p s
  | Thrown w =>
      let r' := run H (h w) (final (run H p s)) in
      RunResult (trace (run H p s) ++ trace r') (result r') (final r')
  end.
Proof.
  revert s. induction p as [a|w|X c k IH]; intros s; simpl.
  - done.
  - by destruct (run H (h w) s).
  - destruct (answer H c s) as [x s']. rewrite IH. simpl.
    by destruct (result (run H (k x) s')).
Qed.

End Run.

(** ** Counting releases and allocations *)

Lemma frees_app (o : Z) (tr1 tr2 : list event) :
  frees o (tr1 ++ tr2) = frees o tr1 + frees o tr2.
Proof. unfold frees. by rewrite filter_app, length_app. Qed.

Lemma allocs_app (o : Z) (tr1 tr2 : list event) :
  allocs o (tr1 ++ tr2) = allocs o tr1 + allocs o tr2.
Proof. unfold allocs. by rewrite filter_app, length_app. Qed.

Lemma holders_empty (o : Z) : holders o ∅ = 0.
Proof. unfold holders. by rewrite map_to_list_empty. Qed.

Lemma holders_insert_fresh (o : Z) (objs : gmap nat Memory.t) (a : nat) (m : Memory.t) :
  objs !! a = None ->
  holders o (<[a := m]> objs) = holds o m + holders o objs.
Proof.
  intros Hfresh. unfold holders, holds.
  rewrite (map_to_list_insert objs a m Hfresh), filter_cons. simpl.
  by destruct (decide (Memory.offset m = o)).
Qed.

Lemma holders_delete (o : Z) (objs : gmap nat Memory.t) (a : nat) (m : Memory.t) :
  objs !! a = Some m ->
  holders o objs = holds o m + holders o (delete a objs).
Proof.
  intros Hlive. unfold holders, holds.
  rewrite <- (map_to_list_delete objs a m Hlive), filter_cons. simpl.
  by destruct (decide (Memory.offset m = o)).
Qed.

Lemma holders_replace (o : Z) (objs : gmap nat Memory.t) (a : nat) (old new : Memory.t) :
  objs !! a = Some old ->
  holders o (<[a := new]> objs) + holds o old = holds o new + holders o objs.
Proof.
  intros Hlive.
  rewrite <- (insert_delete_eq objs a new).
  rewrite holders_insert_fresh by apply lookup_delete_eq.
  rewrite (holders_delete o objs a old Hlive). lia.
Qed.

Lemma frees_free (o p : Z) (x : unit) :
  frees o [Ev (extism_free p) x] = if decide (p = o) then 1 else 0.
Proof.
  unfold frees. rewrite filter_cons. simpl.
  destruct (Z.eqb_spec p o); destruct (decide (p = o)); simpl; congruence.
Qed.

Lemma allocs_alloc (o off : Z) (size : nat) :
  allocs o [Ev (extism_alloc size) off] = if decide (off = o) then 1 else 0.
Proof.
  unfold allocs. rewrite filter_cons. simpl.
  destruct (Z.eqb_spec off o); destruct (decide (off = o)); simpl; congruence.
Qed.

Section Ownership.
Context (H : host) (o : Z) (Ho : o <> 0%Z).

(** Every operation keeps the balance: allocations returning [o] so far
    equal releases of [o] plus the live objects that hold [o]. *)
Lemma exec_op_balance (op : mem_op) (objs : gmap nat Memory.t)
      (p : prog (gmap nat Memory.t)) (s : hstate H) :
  exec_op op objs = Some p ->
  exists objs',
    result (run H p s) = Returned objs' /\
    allocs o (trace (run H p s)) + holders o objs =
    frees o (trace (run H p s)) + holders o objs'.
Proof.
  destruct op as [a size|a b|a b|a]; simpl.
  - destruct (objs !! a) eqn:Ha; [done|]. intros [= <-].
    unfold Memory.ctor. simpl. destruct (answer H (extism_alloc size) s) as [off s'].
    eexists; split; [reflexivity|]. simpl.
    rewrite allocs_alloc, holders_insert_fresh by done.
    unfold holds; simpl. unfold frees; simpl. lia.
  - destruct (objs !! a) eqn:Ha; [done|].
    destruct (objs !! b) as [other|] eqn:Hb; [|done]. intros [= <-].
    eexists; split; [reflexivity|]. simpl.
    assert (a <> b) by congruence.
    rewrite holders_insert_fresh by (by rewrite lookup_insert_ne).
    pose proof (holders_replace o objs b other (Memory.Build 0 0) Hb) as Hr.
    unfold holds in *; simpl in *.
    destruct (decide (0%Z = o)); [congruence|].
    destruct other as [off len]; simpl in *. unfold allocs, frees; simpl. lia.
  - destruct (objs !! a) as [this|] eqn:Ha; [|done].
    destruct (objs !! b) as [other|] eqn:Hb; [|done].
    destruct (decide (a = b)) as [->|Hab]; intros [= <-].
    + eexists; split; [reflexivity|]. simpl. lia.
    + pose proof (holders_replace o objs b other (Memory.Build 0 0) Hb) as Hr.
      pose proof (holders_replace o (<[b := Memory.Build 0 0]> objs) a this
                    (Memory.Build (Memory.offset other) (Memory.length other))) as Hr'.
      rewrite lookup_insert_ne in Hr' by done. specialize (Hr' Ha).
      unfold holds in *; simpl in *.
      destruct (decide (0%Z = o)); [congruence|].
      unfold Memory.move_assign.
      destruct (Z.eqb_spec (Memory.offset this) 0) as [Hz|Hz]; simpl.
      * eexists; split; [reflexivity|]. simpl.
        destruct (decide (Memory.offset this = o)); [congruence|].
        unfold allocs, frees; simpl. lia.
      * destruct (answer H (extism_free (Memory.offset this)) s) as [x s'].
        eexists; split; [reflexivity|]. simpl.
        change (Ev (extism_free (Memory.offset this)) x :: [])
          with ([Ev (extism_free (Memory.offset this)) x]).
        rewrite frees_free. unfold allocs; simpl.
        destruct (decide (Memory.offset this = o)); lia.
  - destruct (objs !! a) as [this|] eqn:Ha; [|done]. intros [= <-].
    unfold Memory.dtor. simpl.
    destruct (answer H (extism_free (Memory.offset this)) s) as [x s'].
    eexists; split; [reflexivity|]. simpl.
    rewrite frees_free, (holders_delete o objs a this Ha).
    unfold holds, allocs; simpl. lia.
Qed.

Lemma exec_balance (ops : list mem_op) (objs : gmap nat Memory.t) (s : hstate H) :
  exists objs',
    result (run H (exec ops objs) s) = Returned objs' /\
    allocs o (trace (run H (exec ops objs) s)) + holders o objs =
    frees o (trace (run H (exec ops objs) s)) + holders o objs'.
Proof.
  revert objs s. induction ops as [|op rest IH]; intros objs s; simpl.
  - eexists; split; [reflexivity|]. simpl. lia.
  - destruct (exec_op op objs) as [p|] eqn:Hop.
    + destruct (exec_op_balance op objs p s Hop) as (objs1 & Hres & Hbal).
      rewrite run_bind, Hres. simpl.
      destruct (IH objs1 (final (run H p s))) as (objs2 & Hres2 & Hbal2).
      exists objs2. split; [done|].
      rewrite allocs_app, frees_app. lia.
    + eexists; split; [reflexivity|]. simpl. lia.
Qed.

End Ownership.

(** ** [Memory]: every offset is released at most once *)

(** C1 (as amended).  Moving from a [Memory] handle, by move construction or
    by move assignment between two distinct objects, hands its fields to the
    target and leaves offset 0 and length 0 in the source.  Over any sequence
    of constructions, moves and destructions, run on any host, every non-zero
    offset is released by [extism_free] no more often than [extism_alloc]
    returned it: at most once when the allocator returned it once. *)
Theorem memory_release_at_most_once :
  (forall other : Memory.t,
      Memory.move_ctor other = (other, Memory.Build 0 0)) /\
  (forall (H : host) (s : hstate H) (this other : Memory.t),
      result (run H (Memory.move_assign this other) s) =
      Returned (other, Memory.Build 0 0)) /\
  (forall (H : host) (s : hstate H) (ops : list mem_op) (o : Z),
      o <> 0%Z ->
      frees o (trace (run H (exec ops ∅) s)) <= allocs o (trace (run H (exec ops ∅) s))).
Proof.
  split; [|split].
  - by intros [off len].
  - intros H s this [off len]. unfold Memory.move_assign.
    destruct (Z.eqb (Memory.offset this) 0); simpl; [done|].
    by destruct (answer H (extism_free (Memory.offset this)) s).
  - intros H s ops o Ho.
    destruct (exec_balance H o Ho ops ∅ s) as (objs' & _ & Hbal).
    rewrite holders_empty in Hbal. lia.
Qed.

Lemma memory_release_witness :
  1%Z <> 0%Z /\
  frees 1 (trace (run ref_host (exec move_then_destroy ∅) (ref_init [] heap_ok))) <=
  allocs 1 (trace (run ref_host (exec move_then_destroy ∅) (ref_init [] heap_ok))).
Proof.
  split; [lia|].
  apply (proj2 (proj2 memory_release_at_most_once)
           ref_host (ref_init [] heap_ok) move_then_destroy 1%Z).
  lia.
Defined.

(** C1 as stated fails in two places.  For offset 0: on a host whose
    allocator returns 0, a handle that is moved and then destroyed together
    with its target has [extism_free 0] invoked twice for a single
    allocation.  For self-assignment: a handle move-assigned to itself keeps
    its offset and length. *)
Lemma memory_release_zero_offset :
  (allocs 0 (trace (run null_host (exec move_then_destroy ∅) tt)) = 1 /\
   frees 0 (trace (run null_host (exec move_then_destroy ∅) tt)) = 2 /\
   ~ (frees 0 (trace (run null_host (exec move_then_destroy ∅) tt)) <=
      allocs 0 (trace (run null_host (exec move_then_destroy ∅) tt)))) /\
  result (run ref_host (exec self_assign ∅) (ref_init [] heap_ok)) =
    Returned {[ 0 := Memory.Build 1 8 ]}.
Proof.
  split; [|vm_compute; reflexivity].
  assert (Htr : trace (run null_host (exec move_then_destroy ∅) tt) =
                [Ev (extism_alloc 8) 0%Z; Ev (extism_free 0) tt; Ev (extism_free 0) tt])
    by (vm_compute; reflexivity).
  rewrite Htr. unfold allocs, frees. simpl. repeat split; lia.
Qed.

(** ** [Host::http_request] *)

Section HttpRequest.
Context (H : host).

Lemma run_set_headers (hs : list (bytes * bytes)) (s : hstate H) :
  trace (run H (Host.set_headers hs) s) = map header_event hs /\
  result (run H (Host.set_headers hs) s) = Returned tt.
Proof.
  revert s. induction hs as [|[key value] rest IH]; intros s; [done|].
  cbn [Host.set_headers]. unfold Host.var_set_string.
  rewrite run_bind, run_perform. cbn [result trace final].
  destruct (answer H (extism_var_set (lit "request:header:" ++ key) value) s) as [[] s'].
  cbn [fst snd]. destruct (IH s') as [-> ->]. done.
Qed.

(** The calls made before the request primitive. *)
Lemma run_http_request (request : HttpRequest) (s : hstate H) :
  exists answered : Z * Z,
    trace (run H (Host.http_request request) s) =
      [Ev (extism_var_set (lit "request:method") (http_method_to_string (method request))) tt;
       Ev (extism_var_set (lit "request:url") (url request)) tt]
      ++ map header_event (headers request)
      ++ match body request with
         | Some b => [Ev (extism_var_set (lit "request:body") b) tt]
         | None => []
         end
      ++ [Ev (extism_http_request 0) answered] /\
    result (run H (Host.http_request request) s) =
      if Z.eqb answered.1 0 then Returned (HttpResponse.Build answered.2)
      else Thrown (lit "HTTP request failed").
Proof.
  unfold Host.http_request, Host.var_set_string, Host.var_set. simpl.
  destruct (answer H (extism_var_set _ _) s) as [[] s1]. simpl.
  destruct (answer H (extism_var_set _ _) s1) as [[] s2]. simpl.
  rewrite run_bind.
  destruct (run_set_headers (headers request) s2) as [-> ->]. simpl.
  set (s3 := final (run H (Host.set_headers (headers request)) s2)). clearbody s3.
  rewrite run_bind.
  destruct (body request) as [b|]; simpl.
  - destruct (answer H (extism_var_set (lit "request:body") b) s3) as [[] s4]. simpl.
    destruct (answer H (extism_http_request 0) s4) as [[status response_ptr] s5]. simpl.
    exists (status, response_ptr). simpl. by destruct (Z.eqb status 0).
  - destruct (answer H (extism_http_request 0) s3) as [[status response_ptr] s4]. simpl.
    exists (status, response_ptr). simpl. by destruct (Z.eqb status 0).
Qed.

Lemma http_answers_header_events (hs : list (bytes * bytes)) :
  http_answers (map header_event hs) = [].
Proof. induction hs as [|kv rest IH]; [done|]. exact IH. Qed.

End HttpRequest.

(** C5.  [Host::http_request] calls the host primitive [extism_http_request]
    exactly once; when the status it answers is non-zero the wrapper throws
    ["HTTP request failed"] and no [HttpResponse] is returned, and when the
    status is zero it returns the response object for the handle the host
    stored. *)
Theorem http_request_failure (H : host) (s : hstate H) (request : HttpRequest) :
  exists status response_ptr : Z,
    http_answers (trace (run H (Host.http_request request) s)) = [(status, response_ptr)] /\
    result (run H (Host.http_request request) s) =
      if Z.eqb status 0 then Returned (HttpResponse.Build response_ptr)
      else Thrown (lit "HTTP request failed").
Proof.
  destruct (run_http_request H request s) as ([status response_ptr] & Htr & Hres).
  exists status, response_ptr. split; [|exact Hres].
  rewrite Htr. unfold http_answers.
  rewrite !omap_app. fold (http_answers (map header_event (headers request))).
  rewrite http_answers_header_events.
  by destruct (body request).
Qed.

(** C6.  [Host::http_request] performs, in this order: [extism_var_set] of
    [request:method] to the string form of the method, of [request:url] to
    the URL, of [request:header:<name>] to the value for each header in the
    map's iteration order, of [request:body] to the body exactly when a body
    is present, and last [extism_http_request] with first argument 0.  It
    makes no other host call. *)
Theorem http_request_call_order (H : host) (s : hstate H) (request : HttpRequest) :
  exists answered : Z * Z,
    trace (run H (Host.http_request request) s) =
      [Ev (extism_var_set (lit "request:method") (http_method_to_string (method request))) tt;
       Ev (extism_var_set (lit "request:url") (url request)) tt]
      ++ map (fun kv => Ev (extism_var_set (lit "request:header:" ++ kv.1) kv.2) tt)
             (headers request)
      ++ match body request with
         | Some b => [Ev (extism_var_set (lit "request:body") b) tt]
         | None => []
         end
      ++ [Ev (extism_http_request 0) answered].
Proof.
  destruct (run_http_request H request s) as (answered & Htr & _).
  exists answered. exact Htr.
Qed.

(** ** Lookups: [Host::var_get], [Host::config], [HttpResponse] *)

Lemma vector_filled_exact (data : bytes) :
  vector_filled (List.length data) data = data.
Proof.
  unfold vector_filled. rewrite firstn_all, Nat.sub_diag. simpl. apply app_nil_r.
Qed.

Lemma vector_filled_zero (written : bytes) : vector_filled 0 written = [].
Proof. done. Qed.


Section Lookups.
Context (H : host).

(** What a lookup does once the host has given it a non-zero handle: it
    asks for the length, constructs the vector, loads, releases the handle
    and returns; when the vector cannot be constructed it throws before the
    load and the release. *)
Lemma run_fetch {R : Type} (ptr : Z) (wrap : bytes -> R) (s : hstate H) :
  let len := (answer H (extism_length ptr) s).1 in
  let s1 := (answer H (extism_length ptr) s).2 in
  let p := (len <- perform (extism_length ptr) ;;
            new_vector len ;;
            written <- perform (extism_load_u8 ptr 0 len) ;;
            perform (extism_free ptr) ;;
            Ret (wrap (vector_filled len written)))%prog in
  match vector_refusal H len s1 with
  | Some what =>
      trace (run H p s) = [Ev (extism_length ptr) len; Ev (vector_new len) (Some what)] /\
      result (run H p s) = Thrown what
  | None =>
      exists written,
        trace (run H p s) =
          [Ev (extism_length ptr) len]
          ++ (if Nat.eqb len 0 then [] else [Ev (vector_new len) None])
          ++ [Ev (extism_load_u8 ptr 0 len) written; Ev (extism_free ptr) tt] /\
        result (run H p s) = Returned (wrap (vector_filled len written))
  end.
Proof.
  cbv zeta. unfold vector_refusal, new_vector. cbn [bind perform run].
  destruct (answer H (extism_length ptr) s) as [len s1]. cbn [fst snd].
  destruct (Nat.eqb len 0).
  - cbn [bind perform run].
    destruct (answer H (extism_load_u8 ptr 0 len) s1) as [written s2].
    cbn [bind perform run].
    destruct (answer H (extism_free ptr) s2) as [[] s3].
    cbn [run after trace result app]. by exists written.
  - cbn [bind perform run].
    destruct (answer H (vector_new len) s1) as [[what|] s2]; cbn [fst snd].
    + cbn [bind run after trace result]. done.
    + cbn [bind perform run].
      destruct (answer H (extism_load_u8 ptr 0 len) s2) as [written s3].
      cbn [bind perform run].
      destruct (answer H (extism_free ptr) s3) as [[] s4].
      cbn [run after trace result app]. by exists written.
Qed.

End Lookups.



(** C10.  When the host answers the zero handle for [response:body],
    [HttpResponse::body] returns the empty vector, and it returns the same
    empty vector when the handle is non-zero and the block has length 0, so
    a missing body and an empty one cannot be told apart; when the host
    answers the zero handle for [response:header:<name>],
    [HttpResponse::header] returns the absent value. *)
Theorem missing_body_is_empty (H : host) (s : hstate H) (response : HttpResponse.t)
        (name : bytes) :
  ((answer H (extism_var_get (lit "response:body")) s).1 = 0%Z ->
   result (run H (HttpResponse.body response) s) = Returned []) /\
  ((answer H (extism_var_get (lit "response:body")) s).1 <> 0%Z ->
   (answer H (extism_length (answer H (extism_var_get (lit "response:body")) s).1)
           (answer H (extism_var_get (lit "response:body")) s).2).1 = 0 ->
   result (run H (HttpResponse.body response) s) = Returned []) /\
  ((answer H (extism_var_get (lit "response:header:" ++ name)) s).1 = 0%Z ->
   result (run H (HttpResponse.header response name) s) = Returned None).
Proof.
  split; [|split].
  - unfold HttpResponse.body. simpl.
    destruct (answer H (extism_var_get (lit "response:body")) s) as [ptr s1]. simpl.
    by intros ->.
  - unfold HttpResponse.body. simpl.
    destruct (answer H (extism_var_get (lit "response:body")) s) as [ptr s1]. simpl.
    intros Hnz. destruct (Z.eqb_spec ptr 0) as [Hz|_]; [done|]. simpl.
    destruct (answer H (extism_length ptr) s1) as [len s2]. simpl. intros ->.
    unfold new_vector. simpl.
    destruct (answer H (extism_load_u8 ptr 0 0) s2) as [written s3]. simpl.
    by destruct (answer H (extism_free ptr) s3) as [[] s4].
  - unfold HttpResponse.header. simpl.
    destruct (answer H (extism_var_get _) s) as [ptr s1].
    simpl. by intros ->.
Qed.

Lemma missing_body_is_empty_witness :
  result (run ref_host (HttpResponse.body (HttpResponse.Build 1)) (ref_init [] heap_ok))
    = Returned [] /\
  result (run ref_host (HttpResponse.body (HttpResponse.Build 1)) empty_body_state)
    = Returned [] /\
  result (run ref_host (HttpResponse.header (HttpResponse.Build 1) (lit "Content-Type"))
              (ref_init [] heap_ok))
    = Returned None.
Proof.
  split; [|split].
  - apply (proj1 (missing_body_is_empty ref_host (ref_init [] heap_ok)
                    (HttpResponse.Build 1) (lit "Content-Type"))).
    reflexivity.
  - apply (proj1 (proj2 (missing_body_is_empty ref_host empty_body_state
                           (HttpResponse.Build 1) (lit "Content-Type")))).
    + vm_compute. discriminate.
    + vm_compute. reflexivity.
  - apply (proj2 (proj2 (missing_body_is_empty ref_host (ref_init [] heap_ok)
                           (HttpResponse.Build 1) (lit "Content-Type")))).
    reflexivity.
Defined.

(** ** The variable store of the reference host *)

Lemma ref_new_vector (len : nat) (s : ref_state) :
  run ref_host (new_vector len) s =
  RunResult (H := ref_host)
            (if Nat.eqb len 0 then [] else [Ev (vector_new len) None]) (Returned tt) s.
Proof. unfold new_vector. by destruct (Nat.eqb len 0). Qed.

Lemma ref_var_get (s : ref_state) (name v : bytes) :
  rs_vars s !! name = Some v ->
  result (run ref_host (Host.var_get name) s) = Returned (Some v).
Proof.
  intros Hv. unfold Host.var_get.
  rewrite run_bind, run_perform. cbn [result trace final answer ref_host ref_answer].
  rewrite Hv. cbn [lookup_handle new_block fst snd Z.eqb].
  rewrite run_bind, run_perform. cbn [result trace final answer ref_host ref_answer fst snd].
  rewrite run_bind, ref_new_vector. cbn [result trace final].
  rewrite run_bind, run_perform. cbn [result trace final answer ref_host ref_answer fst snd].
  rewrite run_bind, run_perform. cbn [result trace final answer ref_host ref_answer fst snd].
  cbn [run result].
  unfold block. cbn [rs_blocks]. rewrite lookup_insert_eq. cbn [default]. cbv [id].
  by rewrite drop_0, firstn_all, vector_filled_exact.
Qed.

Lemma ref_var_set (s : ref_state) (name v : bytes) :
  rs_vars (final (run ref_host (Host.var_set name v) s)) = <[name := v]> (rs_vars s) /\
  result (run ref_host (Host.var_set name v) s) = Returned tt.
Proof. done. Qed.

(** C7.  On the reference host, after [Host::var_set name v], a
    [Host::var_get name] in any state whose variable store is the one
    [var_set] left returns the present value [v], byte for byte; [v] may be
    empty. *)
Theorem var_set_get_roundtrip (s s' : ref_state) (name v : bytes) :
  rs_vars s' = rs_vars (final (run ref_host (Host.var_set name v) s)) ->
  result (run ref_host (Host.var_get name) s') = Returned (Some v).
Proof.
  intros Hsame. apply ref_var_get.
  rewrite Hsame. destruct (ref_var_set s name v) as [-> _]. apply lookup_insert_eq.
Qed.

Lemma var_set_get_roundtrip_witness :
  result (run ref_host (Host.var_get (lit "counter"))
              (final (run ref_host (Host.var_set (lit "counter") []) (ref_init [] heap_ok))))
    = Returned (Some []) /\
  result (run ref_host (Host.var_get (lit "counter"))
              (final (run ref_host (Host.var_set (lit "counter") (lit "42")) empty_body_state)))
    = Returned (Some (lit "42")).
Proof.
  split.
  - apply (var_set_get_roundtrip (ref_init [] heap_ok) _ (lit "counter") []).
    reflexivity.
  - apply (var_set_get_roundtrip empty_body_state _ (lit "counter") (lit "42")).
    reflexivity.
Defined.

(** ** Searching in byte strings *)

Lemma starts_with_app (pat rest : bytes) : starts_with pat (pat ++ rest) = true.
Proof.
  induction pat as [|a pat IH]; simpl; [done|].
  by rewrite Ascii.eqb_refl, IH.
Qed.

Lemma starts_with_extend (pat u v : bytes) :
  starts_with pat u = true -> starts_with pat (u ++ v) = true.
Proof.
  revert u. induction pat as [|a pat IH]; intros [|b u]; simpl; try done.
  intros [Hab Hrest]%andb_true_iff. rewrite Hab. simpl. by apply IH.
Qed.

(** An occurrence of [pat] cannot run over a character that [pat] lacks. *)
Lemma starts_with_separator (pat u rest : bytes) (c : ascii) :
  c ∉ pat ->
  starts_with pat (u ++ c :: rest) = true -> starts_with pat u = true.
Proof.
  revert u. induction pat as [|a pat IH]; intros u Hc; [by destruct u|].
  apply not_elem_of_cons in Hc as [Hca Hc].
  destruct u as [|b u]; simpl.
  - intros [Hab _]%andb_true_iff. apply Ascii.eqb_eq in Hab. congruence.
  - intros [Hab Hrest]%andb_true_iff. rewrite Hab. simpl. by apply IH.
Qed.

Lemma find_first_None (pat s : bytes) (j : nat) :
  find_first pat s = None -> starts_with pat (drop j s) = false.
Proof.
  revert j. induction s as [|b s IH]; intros j; simpl.
  - destruct (starts_with pat []) eqn:Hp; [done|]. intros _. by destruct j.
  - destruct (starts_with pat (b :: s)) eqn:Hp; [done|].
    destruct (find_first pat s) eqn:Hf; [done|]. intros _.
    destruct j as [|j]; [done|]. simpl. by apply IH.
Qed.

Lemma find_first_skip (pat u v : bytes) :
  (forall j, j < List.length u -> starts_with pat (drop j u ++ v) = false) ->
  find_first pat (u ++ v) = Nat.add (List.length u) <$> find_first pat v.
Proof.
  induction u as [|b u IH]; intros Hno; simpl.
  - by destruct (find_first pat v).
  - assert (H0 : starts_with pat (b :: u ++ v) = false) by (apply (Hno 0); simpl; lia).
    rewrite H0, IH; [by destruct (find_first pat v)|].
    intros j Hj. apply (Hno (S j)). simpl. lia.
Qed.

Lemma find_first_here (pat rest : bytes) : find_first pat (pat ++ rest) = Some 0.
Proof.
  destruct (pat ++ rest) eqn:Heq; simpl; rewrite <- Heq, starts_with_app; done.
Qed.

Lemma find_first_next (pat rest : bytes) (c : ascii) :
  c ∉ pat -> pat <> [] -> find_first pat (c :: pat ++ rest) = Some 1.
Proof.
  intros Hc Hne.
  change (find_first pat (c :: pat ++ rest))
    with (if starts_with pat (c :: pat ++ rest) then Some 0
          else S <$> find_first pat (pat ++ rest)).
  rewrite find_first_here.
  destruct pat as [|a pat]; [done|].
  apply not_elem_of_cons in Hc as [Hca _]. simpl.
  by destruct (Ascii.eqb_spec a c) as [->|_].
Qed.

(** The first occurrence of [pat] in [u ++ c :: pat ++ rest] starts right
    after the separator [c] when [pat] does not occur in [u] and lacks [c]. *)
Lemma find_first_after_separator (pat u rest : bytes) (c : ascii) :
  c ∉ pat -> pat <> [] ->
  find_first pat u = None ->
  find_first pat (u ++ c :: pat ++ rest) = Some (List.length u + 1).
Proof.
  intros Hc Hne Hnone.
  rewrite find_first_skip.
  - by rewrite find_first_next.
  - intros j Hj.
    destruct (starts_with pat (drop j u ++ c :: pat ++ rest)) eqn:Hs; [|done].
    apply starts_with_separator in Hs; [|done].
    by rewrite (find_first_None pat u j Hnone) in Hs.
Qed.

Lemma find_first_char (c : ascii) (u rest : bytes) :
  c ∉ u -> find_first [c] (u ++ c :: rest) = Some (List.length u).
Proof.
  intros Hc. rewrite find_first_skip.
  - simpl. rewrite Ascii.eqb_refl. simpl. f_equal. lia.
  - intros j Hj.
    destruct (drop j u) as [|b u'] eqn:Hd.
    + apply (f_equal List.length) in Hd. rewrite length_drop in Hd. simpl in Hd. lia.
    + simpl. destruct (Ascii.eqb_spec c b) as [->|_]; [|done].
      exfalso. apply Hc. apply (subseteq_drop j u). rewrite Hd. left.
Qed.

Lemma find_first_bound (pat s : bytes) (i : nat) :
  find_first pat s = Some i -> pat <> [] -> i < List.length s.
Proof.
  revert i. induction s as [|b s IH]; intros i; simpl.
  - destruct pat; [done|]. done.
  - destruct (starts_with pat (b :: s)).
    + intros [= <-] _. lia.
    + destruct (find_first pat s) as [k|]; [|done]. simpl.
      intros [= <-] Hne. specialize (IH k eq_refl Hne). lia.
Qed.

Lemma find_first_char_found (c : ascii) (s : bytes) :
  found (find_first [c] s) = true <-> c ∈ s.
Proof.
  induction s as [|b s IH]; simpl.
  - split; [done|]. by intros ?%elem_of_nil.
  - destruct (Ascii.eqb_spec c b) as [->|Hne]; simpl.
    + split; [|done]. intros _. left.
    + rewrite elem_of_cons. destruct (find_first [c] s); simpl in *.
      * split; [|done]. intros _. right. by apply IH.
      * split; [done|]. intros [?|Hin]; [done|]. by apply IH in Hin.
Qed.

(** ** C strings *)

Lemma c_str_app (u v : bytes) : NUL ∉ u -> c_str (u ++ v) = u ++ c_str v.
Proof.
  induction u as [|b u IH]; intros Hu; simpl; [done|].
  apply not_elem_of_cons in Hu as [Hb Hu].
  destruct (Ascii.eqb_spec b NUL) as [->|_]; [done|]. by rewrite IH.
Qed.

Lemma c_str_terminated (u rest : bytes) : NUL ∉ u -> c_str (u ++ NUL :: rest) = u.
Proof. intros Hu. rewrite c_str_app by done. simpl. apply app_nil_r. Qed.

Lemma c_str_nul_free (u : bytes) : NUL ∉ u -> c_str u = u.
Proof.
  intros Hu. rewrite <- (app_nil_r u) at 1. rewrite c_str_app by done.
  simpl. apply app_nil_r.
Qed.

Lemma c_str_no_nul (buf : bytes) : NUL ∉ c_str buf.
Proof.
  induction buf as [|b buf IH]; simpl; [apply not_elem_of_nil|].
  destruct (Ascii.eqb_spec b NUL) as [->|Hb]; [apply not_elem_of_nil|].
  apply not_elem_of_cons. split; [congruence|done].
Qed.

(** ** The example plugins on the reference host *)

Lemma ref_input (s : ref_state) :
  run ref_host Host.input s =
  RunResult (H := ref_host)
            ([Ev extism_input_length (List.length (rs_input s))]
             ++ (if Nat.eqb (List.length (rs_input s)) 0 then []
                 else [Ev (vector_new (List.length (rs_input s))) None])
             ++ [Ev (extism_input_load_u8 0 (List.length (rs_input s))) (rs_input s)])
            (Returned (rs_input s)) s.
Proof.
  unfold Host.input.
  rewrite run_bind, run_perform. cbn [result trace final answer ref_host ref_answer fst snd].
  rewrite run_bind, ref_new_vector. cbn [result trace final].
  rewrite run_bind, run_perform. cbn [result trace final answer ref_host ref_answer fst snd].
  cbn [run result trace final].
  by rewrite drop_0, firstn_all, vector_filled_exact, app_nil_r.
Qed.

Lemma run_hello_cpp (s : ref_state) (name : bytes) :
  HelloCpp.name_of (rs_input s) = Ret name ->
  run ref_host HelloCpp.hello s =
  RunResult (H := ref_host)
            (([Ev (extism_log_debug (lit "Hello function called")) tt;
               Ev extism_input_length (List.length (rs_input s))]
              ++ (if Nat.eqb (List.length (rs_input s)) 0 then []
                  else [Ev (vector_new (List.length (rs_input s))) None])
              ++ [Ev (extism_input_load_u8 0 (List.length (rs_input s))) (rs_input s);
                  Ev (extism_log_info
                        (lit "Created greeting: " ++ lit "Hello, " ++ name ++ lit "!")) tt])
             ++ [Ev (extism_output_set (greeting_json name)) tt])
            (Returned 0%Z) s.
Proof.
  intros Hname. unfold HelloCpp.hello. rewrite run_try_catch.
  rewrite run_bind. unfold Host.log_debug, Host.input_string. rewrite run_perform.
  cbn [result trace final answer ref_host ref_answer fst snd].
  rewrite run_bind, ref_input. cbn [result trace final]. rewrite Hname.
  unfold Host.log_info, Host.output_string, greeting_json.
  cbn [bind perform run result trace final answer ref_host ref_answer after].
  rewrite <- !app_assoc. reflexivity.
Qed.

Lemma output_of_hello_cpp (s : ref_state) (name : bytes) :
  HelloCpp.name_of (rs_input s) = Ret name ->
  output_of (trace (run ref_host HelloCpp.hello s)) = Some (greeting_json name) /\
  result (run ref_host HelloCpp.hello s) = Returned 0%Z.
Proof.
  intros Hname. rewrite (run_hello_cpp s name Hname). cbn [trace result].
  split; [|done]. unfold output_of. rewrite omap_app. cbn [omap list_omap output_data].
  apply last_snoc.
Qed.

Lemma output_of_snoc (tr : list event) (data : bytes) :
  output_of (tr ++ [Ev (extism_output_set data) tt]) = Some data.
Proof. unfold output_of. rewrite omap_app. simpl. apply last_snoc. Qed.

Lemma nul_free_literals :
  (NUL ∉ json_open) /\ (NUL ∉ json_close) /\ (NUL ∉ lit "Hello, ") /\
  (NUL ∉ lit "!") /\ (NUL ∉ lit "World").
Proof. repeat split; compute_done. Qed.

Lemma nul_free_greeting (name : bytes) : NUL ∉ name -> NUL ∉ greeting_json name.
Proof.
  intros Hname. destruct nul_free_literals as (? & ? & ? & ? & _).
  unfold greeting_json. rewrite !not_elem_of_app. done.
Qed.

(** The output of a bounded [snprintf] of NUL-free text is its first
    [size - 1] bytes. *)
Lemma c_str_snprintf (size : nat) (text : bytes) :
  NUL ∉ text -> c_str (snprintf size text) = take (size - 1) text.
Proof.
  intros Htext. unfold snprintf. apply c_str_terminated.
  intros Hin. apply Htext. by apply (subseteq_take (size - 1) text).
Qed.

Section AnyHost.
Context (H : host).

Lemma run_finish (name : bytes) (s : hstate H) :
  exists log : bytes,
    trace (run H (HelloC.finish (Some name)) s) =
      [Ev (extism_log_info log) tt;
       Ev (extism_output_set
             (c_str (snprintf 256 (greeting_json (c_str name))))) tt] /\
    result (run H (HelloC.finish (Some name)) s) = Returned 0%Z.
Proof.
  unfold HelloC.finish, greeting_json.
  cbn [bind perform run].
  destruct (answer H (extism_log_info _) s) as [[] s1].
  cbn [bind perform run after trace result].
  destruct (answer H (extism_output_set _) s1) as [[] s2].
  cbn [run after trace result]. eexists. split; reflexivity.
Qed.

Lemma run_hello_c_pdk (s : hstate H) :
  exists input : bytes,
    (answer H extism_input_get s).1 = input /\
    trace (run H HelloCPdk.hello s) =
      [Ev extism_input_get input;
       Ev (extism_output_set
             (c_str (snprintf 512
                (greeting_json
                   (c_str (match input with
                           | [] => lit "World" ++ [NUL]
                           | _ :: _ =>
                               take (Nat.min (List.length input) 255) input
                               ++ replicate (256 - Nat.min (List.length input) 255) NUL
                           end)))))) tt] /\
    result (run H HelloCPdk.hello s) = Returned 0%Z.
Proof.
  unfold HelloCPdk.hello, greeting_json. cbn [bind perform run].
  destruct (answer H extism_input_get s) as [input s1].
  exists input. split; [done|].
  cbn [bind perform run after trace result].
  destruct (answer H (extism_output_set _) s1) as [[] s2].
  cbn [run after trace result].
  destruct input as [|b input]; [done|].
  set (n := List.length (b :: input)).
  assert (Hn : 0 < n) by (subst n; simpl; lia).
  replace (Nat.ltb 0 n) with true by (symmetry; apply Nat.ltb_lt; lia).
  destruct (Nat.ltb_spec n 255) as [Hlt|Hge].
  - rewrite Nat.min_l by lia. done.
  - rewrite Nat.min_r by lia. done.
Qed.

End AnyHost.

Example greeting_json_World :
  greeting_json (lit "World") =
  lit "{" ++ [dquote] ++ lit "greeting" ++ [dquote] ++ lit ":" ++ [dquote]
  ++ lit "Hello, World!" ++ [dquote] ++ lit "}".
Proof. reflexivity. Qed.

(** The C example up to the choice of the name, for a non-empty input whose
    buffer allocation succeeds. *)
Lemma run_hello_c_nonempty (s : ref_state) (name : bytes) :
  rs_input s <> [] ->
  rs_heap s (rs_mallocs s) = true ->
  result (run ref_host
              (HelloC.name_of (List.length (rs_input s)) (rs_input s ++ [NUL]))
              (next_malloc s).2) = Returned (Some name) ->
  output_of (trace (run ref_host HelloC.hello s)) =
    Some (c_str (snprintf 256 (greeting_json (c_str name)))) /\
  result (run ref_host HelloC.hello s) = Returned 0%Z.
Proof.
  intros Hinput Hheap Hname. unfold HelloC.hello.
  rewrite run_bind, run_perform.
  cbn [result trace final answer ref_host ref_answer fst snd].
  rewrite run_bind, run_perform.
  cbn [result trace final answer ref_host ref_answer fst snd].
  destruct (Nat.eqb_spec (List.length (rs_input s)) 0) as [Hz|_].
  { destruct (rs_input s); [done|discriminate]. }
  rewrite run_bind, run_perform.
  cbn [result trace final answer ref_host ref_answer fst snd next_malloc].
  rewrite Hheap. cbn [negb].
  rewrite run_bind, run_perform.
  cbn [result trace final answer ref_host ref_answer fst snd].
  rewrite drop_0, firstn_all, vector_filled_exact.
  rewrite run_bind.
  change (RefState (rs_input s) (rs_vars s) (rs_config s) (rs_blocks s) (rs_next s)
            (rs_http s) (rs_status_code s) (rs_heap s) (S (rs_mallocs s)))
    with (next_malloc s).2.
  change (rs_input (next_malloc s).2) with (rs_input s).
  rewrite Hname.
  destruct (run_finish ref_host name
              (final (run ref_host
                 (HelloC.name_of (List.length (rs_input s)) (rs_input s ++ [NUL]))
                 (next_malloc s).2))) as (log & Htr & Hres).
  cbn [result trace final]. rewrite Htr, Hres. split; [|done].
  rewrite !app_assoc.
  change [Ev (extism_log_info log) (); Ev (extism_output_set (c_str (snprintf 256 (greeting_json (c_str name))))) ()]
    with ([Ev (extism_log_info log) ()] ++ [Ev (extism_output_set (c_str (snprintf 256 (greeting_json (c_str name))))) ()]).
  rewrite app_assoc. apply output_of_snoc.
Qed.

Lemma run_hello_c_empty (s : ref_state) :
  rs_input s = [] ->
  rs_heap s (rs_mallocs s) = true ->
  output_of (trace (run ref_host HelloC.hello s)) = Some (greeting_json (lit "World")) /\
  result (run ref_host HelloC.hello s) = Returned 0%Z.
Proof.
  intros Hinput Hheap. unfold HelloC.hello.
  rewrite run_bind, run_perform.
  cbn [result trace final answer ref_host ref_answer fst snd].
  rewrite run_bind, run_perform.
  cbn [result trace final answer ref_host ref_answer fst snd].
  rewrite Hinput. cbn [List.length Nat.eqb].
  rewrite run_bind. unfold HelloC.strdup. rewrite run_bind, run_perform.
  cbn [result trace final answer ref_host ref_answer fst snd next_malloc].
  rewrite Hheap. cbn [run result trace final].
  destruct (run_finish ref_host (c_str HelloC.World ++ [NUL])
              (RefState (rs_input s) (rs_vars s) (rs_config s) (rs_blocks s) (rs_next s)
                 (rs_http s) (rs_status_code s) (rs_heap s) (S (rs_mallocs s))))
    as (log & Htr & Hres).
  rewrite Htr, Hres. split; [|done].
  unfold output_of. simpl. reflexivity.
Qed.

Lemma run_hello_c_empty_fail (s : ref_state) :
  rs_input s = [] ->
  rs_heap s (rs_mallocs s) = false ->
  outputs (trace (run ref_host HelloC.hello s)) = [] /\
  errors (trace (run ref_host HelloC.hello s)) = [lit "Memory allocation failed"] /\
  result (run ref_host HelloC.hello s) = Returned 1%Z.
Proof.
  intros Hinput Hheap. unfold HelloC.hello.
  rewrite run_bind, run_perform.
  cbn [result trace final answer ref_host ref_answer fst snd].
  rewrite run_bind, run_perform.
  cbn [result trace final answer ref_host ref_answer fst snd].
  rewrite Hinput. cbn [List.length Nat.eqb].
  rewrite run_bind. unfold HelloC.strdup. rewrite run_bind, run_perform.
  cbn [result trace final answer ref_host ref_answer fst snd next_malloc].
  rewrite Hheap. unfold HelloC.finish.
  cbn [bind perform run after result trace final answer ref_host ref_answer].
  done.
Qed.

(** C3 (as amended).  For the empty input the C++ example and the C example
    of [c-pdk] take the default name [World], write exactly the greeting
    document for [World] as their output and return status 0.  The C example
    of [cpp-pdk] does the same when its [strdup] of the default name
    succeeds; when that [strdup] fails it reports [Memory allocation failed],
    sets no output and returns status 1. *)
Theorem hello_empty_input (s : ref_state) :
  rs_input s = [] ->
  (HelloCpp.name_of (rs_input s) = Ret (lit "World") /\
   output_of (trace (run ref_host HelloCpp.hello s)) = Some (greeting_json (lit "World")) /\
   result (run ref_host HelloCpp.hello s) = Returned 0%Z) /\
  ((rs_heap s (rs_mallocs s) = true ->
    output_of (trace (run ref_host HelloC.hello s)) = Some (greeting_json (lit "World")) /\
    result (run ref_host HelloC.hello s) = Returned 0%Z) /\
   (rs_heap s (rs_mallocs s) = false ->
    outputs (trace (run ref_host HelloC.hello s)) = [] /\
    errors (trace (run ref_host HelloC.hello s)) = [lit "Memory allocation failed"] /\
    result (run ref_host HelloC.hello s) = Returned 1%Z)) /\
  (output_of (trace (run ref_host HelloCPdk.hello s)) = Some (greeting_json (lit "World")) /\
   result (run ref_host HelloCPdk.hello s) = Returned 0%Z).
Proof.
  intros Hinput. split; [|split].
  - assert (Hname : HelloCpp.name_of (rs_input s) = Ret (lit "World")) by (by rewrite Hinput).
    split; [exact Hname|]. by apply output_of_hello_cpp.
  - split; intros Hheap.
    + by apply run_hello_c_empty.
    + by apply run_hello_c_empty_fail.
  - destruct (run_hello_c_pdk ref_host s) as (input & Hin & Htr & Hres).
    simpl in Hin. rewrite Hinput in Hin. subst input.
    rewrite Htr, Hres. split; [|done]. reflexivity.
Qed.

Lemma hello_empty_input_witness :
  output_of (trace (run ref_host HelloCpp.hello (ref_init [] heap_ok)))
    = Some (greeting_json (lit "World")) /\
  output_of (trace (run ref_host HelloC.hello (ref_init [] heap_ok)))
    = Some (greeting_json (lit "World")) /\
  result (run ref_host HelloC.hello (ref_init [] heap_exhausted)) = Returned 1%Z /\
  output_of (trace (run ref_host HelloCPdk.hello (ref_init [] heap_ok)))
    = Some (greeting_json (lit "World")).
Proof.
  pose proof (hello_empty_input (ref_init [] heap_ok) eq_refl)
    as ((_ & Hcpp & _) & (Hc & _) & Hpdk & _).
  pose proof (hello_empty_input (ref_init [] heap_exhausted) eq_refl)
    as (_ & (_ & Hfail) & _).
  split; [exact Hcpp|]. split; [apply Hc; reflexivity|].
  split; [|exact Hpdk].
  apply Hfail. reflexivity.
Defined.

(** C3 as stated fails for the C example of [cpp-pdk] when [strdup] cannot
    allocate the copy of the default name: on the empty input the plugin
    then returns status 1 and writes no output. *)
Lemma hello_empty_input_out_of_memory :
  rs_input (ref_init [] heap_exhausted) = [] /\
  result (run ref_host HelloC.hello (ref_init [] heap_exhausted)) = Returned 1%Z /\
  output_of (trace (run ref_host HelloC.hello (ref_init [] heap_exhausted))) = None /\
  errors (trace (run ref_host HelloC.hello (ref_init [] heap_exhausted)))
    = [lit "Memory allocation failed"].
Proof. repeat split; vm_compute; reflexivity. Qed.

(** ** The name chosen by the C++ example *)

Lemma find_zero (s pat : bytes) : find s pat (Some 0) = find_first pat s.
Proof. unfold find. simpl. rewrite drop_0. by destruct (find_first pat s). Qed.

Lemma find_from (s pat : bytes) (p : nat) :
  p <= List.length s -> find s pat (Some p) = Nat.add p <$> find_first pat (drop p s).
Proof. intros Hp. unfold find. by destruct (Nat.leb_spec p (List.length s)); [|lia]. Qed.

Lemma name_of_nonempty (input : bytes) :
  input <> [] ->
  HelloCpp.name_of input =
  if found (find input (lit "{") (Some 0)) && found (find input quoted_name (Some 0))
  then
    match find input [dquote] (find input (lit ":") (find input quoted_name (Some 0))) with
    | Some pos =>
        match find input [dquote] (Some (pos + 1)) with
        | Some end_ => substr input (pos + 1) (end_ - pos - 1)
        | None => Ret (lit "World")
        end
    | None => Ret (lit "World")
    end
  else Ret input.
Proof. by destruct input. Qed.

Lemma cpp_name_plain (input : bytes) :
  input <> [] ->
  "{"%char ∉ input \/ find_first quoted_name input = None ->
  HelloCpp.name_of input = Ret input.
Proof.
  intros Hne Hplain. rewrite name_of_nonempty by done. rewrite !find_zero.
  destruct Hplain as [Hbrace|Hname].
  - destruct (found (find_first (lit "{") input)) eqn:Hf; [|done].
    apply (find_first_char_found "{"%char input) in Hf. done.
  - rewrite Hname. simpl. by rewrite andb_false_r.
Qed.

Lemma cpp_name_json (pre X post : bytes) :
  find_first quoted_name pre = None ->
  dquote ∉ X ->
  HelloCpp.name_of
    (pre ++ lit "{" ++ quoted_name ++ lit ":" ++ [dquote] ++ X ++ [dquote] ++ lit "}" ++ post)
  = Ret X.
Proof.
  intros Hpre HX.
  set (input := pre ++ lit "{" ++ quoted_name ++ lit ":" ++ [dquote] ++ X ++ [dquote]
                    ++ lit "}" ++ post).
  assert (Hlen : List.length input = List.length pre + 9 + List.length X + 2 + List.length post).
  { subst input. rewrite !length_app. simpl. lia. }
  rewrite name_of_nonempty by (intros Hnil; rewrite Hnil in Hlen; simpl in Hlen; lia).
  rewrite !find_zero.
  assert (Hbrace : found (find_first (lit "{") input) = true).
  { apply (find_first_char_found "{"%char). subst input.
    rewrite elem_of_app. right. left. }
  rewrite Hbrace.
  assert (Hq : find_first quoted_name input = Some (List.length pre + 1)).
  { subst input.
    apply (find_first_after_separator quoted_name pre _ "{"%char); [compute_done|done|done]. }
  rewrite Hq. cbn [found andb].
  assert (Hd : forall k, drop (List.length pre + k) input =
                         drop k (lit "{" ++ quoted_name ++ lit ":" ++ [dquote] ++ X
                                   ++ [dquote] ++ lit "}" ++ post)).
  { intros k. subst input. apply drop_app_add. }
  assert (H1 : find input (lit ":") (Some (List.length pre + 1)) = Some (List.length pre + 7)).
  { rewrite find_from, Hd by lia.
    change (drop 1 (lit "{" ++ quoted_name ++ lit ":" ++ [dquote] ++ X ++ [dquote]
                      ++ lit "}" ++ post))
      with (quoted_name ++ ":"%char :: [dquote] ++ X ++ [dquote] ++ lit "}" ++ post).
    change (lit ":") with [":"%char].
    rewrite find_first_char by compute_done. simpl. f_equal. lia. }
  assert (H2 : find input [dquote] (Some (List.length pre + 7)) = Some (List.length pre + 8)).
  { rewrite find_from, Hd by lia.
    change (drop 7 (lit "{" ++ quoted_name ++ lit ":" ++ [dquote] ++ X ++ [dquote]
                      ++ lit "}" ++ post))
      with ([":"%char] ++ dquote :: X ++ [dquote] ++ lit "}" ++ post).
    rewrite find_first_char by compute_done. simpl. f_equal. lia. }
  assert (H3 : find input [dquote] (Some (List.length pre + 8 + 1)) =
               Some (List.length pre + 9 + List.length X)).
  { rewrite find_from by lia.
    replace (List.length pre + 8 + 1) with (List.length pre + 9) by lia. rewrite Hd.
    change (drop 9 (lit "{" ++ quoted_name ++ lit ":" ++ [dquote] ++ X ++ [dquote]
                      ++ lit "}" ++ post))
      with (X ++ dquote :: lit "}" ++ post).
    rewrite find_first_char by done. simpl. f_equal. }
  rewrite H1, H2, H3. unfold substr.
  destruct (Nat.leb_spec (List.length pre + 8 + 1) (List.length input)); [|lia].
  replace (List.length pre + 9 + List.length X - (List.length pre + 8) - 1)
    with (List.length X) by lia.
  replace (List.length pre + 8 + 1) with (List.length pre + 9) by lia. rewrite Hd.
  change (drop 9 (lit "{" ++ quoted_name ++ lit ":" ++ [dquote] ++ X ++ [dquote]
                    ++ lit "}" ++ post))
    with (X ++ dquote :: lit "}" ++ post).
  by rewrite take_app_length.
Qed.

Lemma starts_with_length (pat s : bytes) :
  starts_with pat s = true -> List.length pat <= List.length s.
Proof.
  revert s. induction pat as [|a pat IH]; intros [|b s]; simpl; try done; [lia|].
  intros [_ Hrest]%andb_true_iff. apply IH in Hrest. lia.
Qed.

Lemma find_first_fits (pat s : bytes) (i : nat) :
  find_first pat s = Some i -> i + List.length pat <= List.length s.
Proof.
  revert i. induction s as [|b s IH]; intros i; simpl.
  - destruct (starts_with pat []) eqn:Hp; [|done].
    intros [= <-]. by apply starts_with_length in Hp.
  - destruct (starts_with pat (b :: s)) eqn:Hp.
    + intros [= <-]. by apply starts_with_length in Hp.
    + destruct (find_first pat s) as [k|]; [|done]. simpl.
      intros [= <-]. specialize (IH k eq_refl). lia.
Qed.

Lemma find_Some_bound (s pat : bytes) (p : size_t) (q : nat) :
  find s pat p = Some q -> pat <> [] ->
  exists p', p = Some p' /\ p' <= q /\ q < List.length s.
Proof.
  destruct p as [p|]; [|done]. unfold find.
  destruct (Nat.leb_spec p (List.length s)) as [Hp|]; [|done].
  destruct (find_first pat (drop p s)) as [k|] eqn:Hk; [|done]. simpl.
  intros [= <-] Hne. apply find_first_bound in Hk; [|done].
  rewrite length_drop in Hk. exists p. split; [done|]. lia.
Qed.

(** The C++ example never throws while choosing the name. *)
Lemma cpp_name_total (input : bytes) :
  exists name, HelloCpp.name_of input = Ret name /\ (NUL ∉ input -> NUL ∉ name).
Proof.
  destruct (decide (input = [])) as [->|Hne].
  { exists (lit "World"). split; [done|]. intros _. apply nul_free_literals. }
  rewrite name_of_nonempty by done.
  destruct (found _ && found _).
  - destruct (find input [dquote] (find input (lit ":") (find input quoted_name (Some 0))))
      as [pos|] eqn:Hpos.
    + apply find_Some_bound in Hpos as (_ & _ & _ & Hlt); [|done].
      destruct (find input [dquote] (Some (pos + 1))) as [end_|].
      * unfold substr. destruct (Nat.leb_spec (pos + 1) (List.length input)); [|lia].
        eexists; split; [reflexivity|]. intros Hnul Hin. apply Hnul.
        by apply (subseteq_drop (pos + 1) input), (subseteq_take (end_ - pos - 1)).
      * exists (lit "World"). split; [done|]. intros _. apply nul_free_literals.
    + exists (lit "World"). split; [done|]. intros _. apply nul_free_literals.
  - by exists input.
Qed.

(** ** The C example computes the same name on NUL-free input *)

Lemma c_str_drop_buffer (input : bytes) (p : nat) :
  NUL ∉ input -> p <= List.length input ->
  c_str (drop p (input ++ [NUL])) = drop p input.
Proof.
  intros Hnul Hp. rewrite drop_app_le by done. apply c_str_terminated.
  intros Hin. apply Hnul. by apply (subseteq_drop p input).
Qed.

Lemma strstr_find (input pat : bytes) (p : nat) :
  NUL ∉ input -> p <= List.length input ->
  strstr (input ++ [NUL]) p pat = find input pat (Some p).
Proof.
  intros Hnul Hp. unfold strstr. by rewrite c_str_drop_buffer, find_from.
Qed.

Lemma strchr_find (input : bytes) (c : ascii) (p : nat) :
  NUL ∉ input -> p <= List.length input ->
  strchr (input ++ [NUL]) p c = find input [c] (Some p).
Proof.
  intros Hnul Hp. unfold strchr. by rewrite c_str_drop_buffer, find_from.
Qed.

Lemma ref_strdup (s : ref_state) (buf : bytes) :
  rs_heap s (rs_mallocs s) = true ->
  result (run ref_host (HelloC.strdup buf) s) = Returned (Some (c_str buf ++ [NUL])).
Proof. intros Hheap. unfold HelloC.strdup. simpl. by rewrite Hheap. Qed.

Lemma ref_malloc_copy (s : ref_state) (size : nat) (name : bytes) (other : prog (option bytes)) :
  rs_heap s (rs_mallocs s) = true ->
  result (run ref_host
            (got <- perform (malloc size) ;; if got : bool then Ret (Some name) else other) s)
  = Returned (Some name).
Proof. intros Hheap. simpl. by rewrite Hheap. Qed.

Lemma c_name_refines (s : ref_state) (input name : bytes) :
  NUL ∉ input -> input <> [] ->
  rs_heap s (rs_mallocs s) = true ->
  (found (find_first (lit "{") input) && found (find_first quoted_name input) = true ->
   head input = Some "{"%char) ->
  HelloCpp.name_of input = Ret name ->
  result (run ref_host (HelloC.name_of (List.length input) (input ++ [NUL])) s)
  = Returned (Some (name ++ [NUL])).
Proof.
  intros Hnul Hne Hheap Hhead Hcpp.
  rewrite name_of_nonempty in Hcpp by done. rewrite !find_zero in Hcpp.
  unfold HelloC.name_of.
  rewrite !strstr_find by (done || lia). rewrite !find_zero.
  destruct (found (find_first (lit "{") input) && found (find_first quoted_name input))
    eqn:Hcond.
  - (* both take the JSON path *)
    specialize (Hhead eq_refl).
    destruct input as [|b input']; [done|]. injection Hhead as ->.
    apply andb_true_iff in Hcond as [_ Hq].
    destruct (find_first quoted_name ("{"%char :: input')) as [i|] eqn:Hi; [|done].
    pose proof (find_first_fits _ _ _ Hi) as Hfit.
    change (List.length quoted_name) with 6 in Hfit.
    set (input := "{"%char :: input') in *.
    replace (Nat.ltb 2 (List.length input)) with true
      by (symmetry; apply Nat.ltb_lt; lia).
    change (nth 0 (input ++ [NUL]) NUL) with "{"%char.
    cbn [Ascii.eqb Bool.eqb andb found].
    assert (Hworld : result (run ref_host (HelloC.strdup HelloC.World) s)
                     = Returned (Some (lit "World" ++ [NUL]))) by (by rewrite ref_strdup).
    rewrite strchr_find by (done || lia). change [":"%char] with (lit ":").
    destruct (find input (lit ":") (Some i)) as [j|] eqn:Hj.
    2:{ injection Hcpp as <-. exact Hworld. }
    apply find_Some_bound in Hj as (_ & _ & _ & Hjlt); [|done].
    rewrite strchr_find by (done || lia).
    destruct (find input [dquote] (Some j)) as [k|] eqn:Hk.
    2:{ injection Hcpp as <-. exact Hworld. }
    apply find_Some_bound in Hk as (_ & _ & _ & Hklt); [|done].
    rewrite strchr_find by (done || lia).
    destruct (find input [dquote] (Some (k + 1))) as [e|] eqn:He.
    2:{ injection Hcpp as <-. exact Hworld. }
    apply find_Some_bound in He as (? & [= <-] & Hke & Helt); [|done].
    unfold substr in Hcpp.
    destruct (Nat.leb_spec (k + 1) (List.length input)); [|lia].
    injection Hcpp as <-.
    rewrite ref_malloc_copy by done.
    replace (e - (k + 1)) with (e - k - 1) by lia.
    rewrite drop_app_le by lia.
    rewrite take_app_le by (rewrite length_drop; lia). done.
  - (* both take the input as the name *)
    injection Hcpp as <-.
    assert (Hplain : Nat.ltb 2 (List.length input)
                     && Ascii.eqb (nth 0 (input ++ [NUL]) NUL) "{"%char
                     && found (find_first quoted_name input) = false).
    { apply andb_false_iff in Hcond as [Hb|Hq].
      - destruct input as [|b input']; [done|]. simpl.
        destruct (Ascii.eqb_spec b "{"%char) as [->|_].
        + simpl in Hb. done.
        + by rewrite andb_false_r.
      - rewrite Hq. apply andb_false_r. }
    rewrite Hplain. rewrite ref_strdup by done.
    by rewrite c_str_terminated.
Qed.

(** ** Outputs of the C examples *)

Lemma length_greeting_json (name : bytes) :
  List.length (greeting_json name) = 23 + List.length name.
Proof. unfold greeting_json. rewrite !length_app. simpl. lia. Qed.

Lemma take_greeting_json (name : bytes) :
  List.length name <= 232 -> take 255 (greeting_json name) = greeting_json name.
Proof. intros Hlen. apply take_ge. rewrite length_greeting_json. lia. Qed.

(** On NUL-free input, when the allocations succeed and the two examples
    agree on what looks like JSON, the C example writes the first 255 bytes
    of the greeting document for the name the C++ example chooses. *)
Lemma hello_c_follows_cpp (s : ref_state) (name : bytes) :
  rs_input s <> [] ->
  NUL ∉ rs_input s ->
  (forall n, rs_heap s n = true) ->
  (found (find_first (lit "{") (rs_input s)) && found (find_first quoted_name (rs_input s)) = true ->
   head (rs_input s) = Some "{"%char) ->
  HelloCpp.name_of (rs_input s) = Ret name ->
  output_of (trace (run ref_host HelloC.hello s)) = Some (take 255 (greeting_json name)) /\
  result (run ref_host HelloC.hello s) = Returned 0%Z.
Proof.
  intros Hne Hnul Hheap Hhead Hname.
  destruct (cpp_name_total (rs_input s)) as (name' & Hname' & Hfree).
  rewrite Hname in Hname'. injection Hname' as <-. specialize (Hfree Hnul).
  pose proof (c_name_refines (next_malloc s).2 (rs_input s) name Hnul Hne
                (Hheap _) Hhead Hname) as Hc.
  destruct (run_hello_c_nonempty s (name ++ [NUL]) Hne (Hheap _) Hc) as [Hout Hres].
  split; [|exact Hres].
  rewrite Hout, c_str_terminated by done.
  by rewrite c_str_snprintf by (by apply nul_free_greeting).
Qed.

Lemma c_str_padded (data : bytes) (n : nat) :
  NUL ∉ data -> c_str (data ++ replicate (S n) NUL) = data.
Proof. intros Hnul. simpl. by apply c_str_terminated. Qed.

Lemma hello_c_pdk_nonempty (s : ref_state) :
  rs_input s <> [] ->
  NUL ∉ rs_input s ->
  output_of (trace (run ref_host HelloCPdk.hello s)) =
    Some (greeting_json (take 255 (rs_input s))) /\
  result (run ref_host HelloCPdk.hello s) = Returned 0%Z.
Proof.
  intros Hne Hnul.
  destruct (run_hello_c_pdk ref_host s) as (input & Hin & Htr & Hres).
  simpl in Hin. subst input. rewrite Htr, Hres. split; [|done].
  destruct (rs_input s) as [|b input] eqn:Hinput; [done|].
  set (n := Nat.min (List.length (b :: input)) 255).
  assert (Hn : n <= 255) by (subst n; lia).
  replace (256 - n) with (S (255 - n)) by lia.
  assert (Htake : NUL ∉ take n (b :: input)).
  { intros Hin. apply Hnul. by apply (subseteq_take n). }
  rewrite c_str_padded by done.
  rewrite c_str_snprintf by (by apply nul_free_greeting).
  rewrite take_ge by (rewrite length_greeting_json, length_take; lia).
  etransitivity; [apply (output_of_snoc [Ev extism_input_get (b :: input)])|].
  do 2 f_equal. subst n. destruct (Nat.le_ge_cases (List.length (b :: input)) 255).
  - rewrite Nat.min_l by done. by rewrite !take_ge by lia.
  - by rewrite Nat.min_r by done.
Qed.

(** C4 (as amended).  For a non-empty input that contains neither the
    character [{] nor the quoted key [name]: the C++ example takes the whole
    input as the name and writes the greeting document for it; the C example
    of [cpp-pdk] does so when the input has no NUL byte and its allocations
    succeed, up to its 256-byte result buffer: it writes the first 255 bytes
    of the document, which is all of it for inputs of at most 232 bytes; the
    C example of [c-pdk] does so for the first 255 bytes of an input without
    NUL bytes, which is all of it for inputs of at most 255 bytes.  All three
    return status 0. *)
Theorem hello_plain_input (s : ref_state) :
  rs_input s <> [] ->
  "{"%char ∉ rs_input s ->
  find_first quoted_name (rs_input s) = None ->
  (HelloCpp.name_of (rs_input s) = Ret (rs_input s) /\
   output_of (trace (run ref_host HelloCpp.hello s)) = Some (greeting_json (rs_input s)) /\
   result (run ref_host HelloCpp.hello s) = Returned 0%Z) /\
  (NUL ∉ rs_input s -> (forall n, rs_heap s n = true) ->
   output_of (trace (run ref_host HelloC.hello s))
     = Some (take 255 (greeting_json (rs_input s))) /\
   (List.length (rs_input s) <= 232 ->
    output_of (trace (run ref_host HelloC.hello s)) = Some (greeting_json (rs_input s))) /\
   result (run ref_host HelloC.hello s) = Returned 0%Z) /\
  (NUL ∉ rs_input s ->
   output_of (trace (run ref_host HelloCPdk.hello s))
     = Some (greeting_json (take 255 (rs_input s))) /\
   (List.length (rs_input s) <= 255 ->
    output_of (trace (run ref_host HelloCPdk.hello s)) = Some (greeting_json (rs_input s))) /\
   result (run ref_host HelloCPdk.hello s) = Returned 0%Z).
Proof.
  intros Hne Hbrace Hname.
  assert (Hcpp : HelloCpp.name_of (rs_input s) = Ret (rs_input s))
    by (apply cpp_name_plain; [done|by left]).
  split; [|split].
  - split; [exact Hcpp|]. by apply output_of_hello_cpp.
  - intros Hnul Hheap.
    destruct (hello_c_follows_cpp s (rs_input s) Hne Hnul Hheap) as [Hout Hres];
      [|exact Hcpp|].
    { rewrite Hname. simpl. by rewrite andb_false_r. }
    split; [exact Hout|]. split; [|exact Hres].
    intros Hlen. by rewrite Hout, take_greeting_json.
  - intros Hnul. destruct (hello_c_pdk_nonempty s Hne Hnul) as [Hout Hres].
    split; [exact Hout|]. split; [|exact Hres].
    intros Hlen. by rewrite Hout, take_ge.
Qed.

Lemma hello_plain_input_witness :
  output_of (trace (run ref_host HelloCpp.hello (ref_init (lit "Alice") heap_ok)))
    = Some (greeting_json (lit "Alice")) /\
  output_of (trace (run ref_host HelloC.hello (ref_init (lit "Alice") heap_ok)))
    = Some (greeting_json (lit "Alice")) /\
  output_of (trace (run ref_host HelloCPdk.hello (ref_init (lit "Alice") heap_ok)))
    = Some (greeting_json (lit "Alice")).
Proof.
  assert (Hnul : NUL ∉ lit "Alice") by compute_done.
  destruct (hello_plain_input (ref_init (lit "Alice") heap_ok))
    as ((_ & Hcpp & _) & Hc & Hpdk); [done|compute_done|reflexivity|].
  split; [exact Hcpp|]. split.
  - destruct (Hc Hnul) as (_ & Hout & _); [done|]. apply Hout. simpl. lia.
  - destruct (Hpdk Hnul) as (_ & Hout & _). apply Hout. simpl. lia.
Defined.

(** C4 as stated fails for the C examples: a NUL byte ends the name, and
    long inputs are cut by the fixed buffers. *)
Lemma hello_plain_input_truncated :
  (input_with_nul <> [] /\ ("{"%char ∉ input_with_nul) /\
   find_first quoted_name input_with_nul = None /\
   output_of (trace (run ref_host HelloC.hello (ref_init input_with_nul heap_ok)))
     = Some (greeting_json (lit "a")) /\
   output_of (trace (run ref_host HelloCPdk.hello (ref_init input_with_nul heap_ok)))
     = Some (greeting_json (lit "a")) /\
   greeting_json (lit "a") <> greeting_json input_with_nul) /\
  (input_233 <> [] /\ ("{"%char ∉ input_233) /\ find_first quoted_name input_233 = None /\
   output_of (trace (run ref_host HelloC.hello (ref_init input_233 heap_ok)))
     = Some (take 255 (greeting_json input_233)) /\
   take 255 (greeting_json input_233) <> greeting_json input_233) /\
  (input_256 <> [] /\ ("{"%char ∉ input_256) /\ find_first quoted_name input_256 = None /\
   output_of (trace (run ref_host HelloCPdk.hello (ref_init input_256 heap_ok)))
     = Some (greeting_json (take 255 input_256)) /\
   greeting_json (take 255 input_256) <> greeting_json input_256).
Proof.
  split; [|split].
  - split; [done|]. split; [compute_done|]. split; [reflexivity|].
    split; [vm_compute; reflexivity|]. split; [vm_compute; reflexivity|].
    intros Heq. apply (f_equal List.length) in Heq. vm_compute in Heq. discriminate.
  - split; [done|]. split; [compute_done|]. split; [vm_compute; reflexivity|].
    split; [vm_compute; reflexivity|].
    intros Heq. apply (f_equal List.length) in Heq. vm_compute in Heq. discriminate.
  - split; [done|]. split; [compute_done|]. split; [vm_compute; reflexivity|].
    split; [vm_compute; reflexivity|].
    intros Heq. apply (f_equal List.length) in Heq. vm_compute in Heq. discriminate.
Qed.

(** C2 (as amended).  For an input that contains the object text with
    member [name] and value [X], where [X] has no quote character and the
    quoted key [name] does not occur before that text: the C++ example
    extracts exactly [X] and writes the greeting document for [X]; the C
    example of [cpp-pdk] does so when in addition the input starts with [{],
    has no NUL byte and its allocations succeed, up to its 256-byte result
    buffer (the first 255 bytes of the document, all of it when [X] has at
    most 232 bytes).  Both return status 0. *)
Theorem hello_json_name (s : ref_state) (pre X post : bytes) :
  rs_input s =
    pre ++ lit "{" ++ quoted_name ++ lit ":" ++ [dquote] ++ X ++ [dquote] ++ lit "}" ++ post ->
  dquote ∉ X ->
  find_first quoted_name pre = None ->
  (HelloCpp.name_of (rs_input s) = Ret X /\
   output_of (trace (run ref_host HelloCpp.hello s)) = Some (greeting_json X) /\
   result (run ref_host HelloCpp.hello s) = Returned 0%Z) /\
  (head (rs_input s) = Some "{"%char -> NUL ∉ rs_input s -> (forall n, rs_heap s n = true) ->
   output_of (trace (run ref_host HelloC.hello s)) = Some (take 255 (greeting_json X)) /\
   (List.length X <= 232 ->
    output_of (trace (run ref_host HelloC.hello s)) = Some (greeting_json X)) /\
   result (run ref_host HelloC.hello s) = Returned 0%Z).
Proof.
  intros Hinput HX Hpre.
  assert (Hcpp : HelloCpp.name_of (rs_input s) = Ret X)
    by (rewrite Hinput; by apply cpp_name_json).
  split.
  - split; [exact Hcpp|]. by apply output_of_hello_cpp.
  - intros Hhead Hnul Hheap.
    assert (Hne : rs_input s <> []) by (intros Hnil; by rewrite Hnil in Hhead).
    destruct (hello_c_follows_cpp s X Hne Hnul Hheap (fun _ => Hhead) Hcpp) as [Hout Hres].
    split; [exact Hout|]. split; [|exact Hres].
    intros Hlen. by rewrite Hout, take_greeting_json.
Qed.

Lemma hello_json_name_witness :
  output_of (trace (run ref_host HelloCpp.hello (ref_init input_bob heap_ok)))
    = Some (greeting_json (lit "Bob")) /\
  output_of (trace (run ref_host HelloC.hello (ref_init input_bob heap_ok)))
    = Some (greeting_json (lit "Bob")).
Proof.
  destruct (hello_json_name (ref_init input_bob heap_ok) [] (lit "Bob") [])
    as ((_ & Hcpp & _) & Hc); [reflexivity|compute_done|reflexivity|].
  split; [exact Hcpp|].
  destruct Hc as (_ & Hout & _); [reflexivity|compute_done|done|].
  apply Hout. simpl. lia.
Defined.

(** C2 as stated fails: the input below contains [{], the quoted key and
    the object text with value [X], but the first quoted key [name] comes
    earlier, so the C++ example extracts [Y]; the C example, whose input
    does not start with [{], takes the whole input as the name. *)
Lemma hello_json_name_first_key_wins :
  input_two_names =
    (quoted_name ++ lit ":" ++ [dquote] ++ lit "Y" ++ [dquote])
    ++ (lit "{" ++ quoted_name ++ lit ":" ++ [dquote] ++ lit "X" ++ [dquote] ++ lit "}") /\
  ("{"%char ∈ input_two_names) /\
  found (find_first quoted_name input_two_names) = true /\
  (dquote ∉ lit "X") /\
  output_of (trace (run ref_host HelloCpp.hello (ref_init input_two_names heap_ok)))
    = Some (greeting_json (lit "Y")) /\
  output_of (trace (run ref_host HelloC.hello (ref_init input_two_names heap_ok)))
    = Some (greeting_json input_two_names) /\
  greeting_json (lit "Y") <> greeting_json (lit "X") /\
  greeting_json input_two_names <> greeting_json (lit "X").
Proof.
  split; [reflexivity|]. split; [compute_done|]. split; [reflexivity|].
  split; [compute_done|]. split; [vm_compute; reflexivity|].
  split; [vm_compute; reflexivity|]. split; [discriminate|].
  intros Heq. apply (f_equal List.length) in Heq. vm_compute in Heq. discriminate.
Qed.

(** C9 (as amended).  Run on the same host state, with an input that has
    no NUL byte and that begins with [{] whenever it contains both [{] and
    the quoted key [name], and with the C allocations succeeding, the C and
    the C++ example both return status 0, and the C output is the C++ output
    cut to the 255 bytes of the C result buffer: the same bytes when the C++
    output has at most 255 bytes. *)
Theorem hello_c_matches_cpp (s : ref_state) :
  NUL ∉ rs_input s ->
  (forall n, rs_heap s n = true) ->
  (found (find_first (lit "{") (rs_input s)) && found (find_first quoted_name (rs_input s)) = true ->
   head (rs_input s) = Some "{"%char) ->
  exists out : bytes,
    output_of (trace (run ref_host HelloCpp.hello s)) = Some out /\
    output_of (trace (run ref_host HelloC.hello s)) = Some (take 255 out) /\
    (List.length out <= 255 ->
     output_of (trace (run ref_host HelloC.hello s))
       = output_of (trace (run ref_host HelloCpp.hello s))) /\
    result (run ref_host HelloCpp.hello s) = Returned 0%Z /\
    result (run ref_host HelloC.hello s) = Returned 0%Z.
Proof.
  intros Hnul Hheap Hhead.
  destruct (cpp_name_total (rs_input s)) as (name & Hname & _).
  destruct (output_of_hello_cpp s name Hname) as [Hout Hres].
  exists (greeting_json name). split; [exact Hout|].
  assert (Hc : output_of (trace (run ref_host HelloC.hello s))
               = Some (take 255 (greeting_json name)) /\
               result (run ref_host HelloC.hello s) = Returned 0%Z).
  { destruct (decide (rs_input s = [])) as [Hempty|Hne].
    - rewrite Hempty in Hname. injection Hname as <-.
      destruct (run_hello_c_empty s Hempty (Hheap _)) as [-> ->]. done.
    - by apply hello_c_follows_cpp. }
  destruct Hc as [Hcout Hcres].
  split; [exact Hcout|]. split; [|done].
  intros Hlen. by rewrite Hcout, Hout, take_ge.
Qed.

Lemma hello_c_matches_cpp_witness :
  exists out : bytes,
    output_of (trace (run ref_host HelloCpp.hello (ref_init input_bob heap_ok))) = Some out /\
    output_of (trace (run ref_host HelloC.hello (ref_init input_bob heap_ok)))
      = Some (take 255 out) /\
    (List.length out <= 255 ->
     output_of (trace (run ref_host HelloC.hello (ref_init input_bob heap_ok)))
       = output_of (trace (run ref_host HelloCpp.hello (ref_init input_bob heap_ok)))) /\
    result (run ref_host HelloCpp.hello (ref_init input_bob heap_ok)) = Returned 0%Z /\
    result (run ref_host HelloC.hello (ref_init input_bob heap_ok)) = Returned 0%Z.
Proof.
  apply (hello_c_matches_cpp (ref_init input_bob heap_ok)).
  - compute_done.
  - done.
  - reflexivity.
Defined.

(** C9 as stated fails: the two examples differ on an input whose [{] is
    not its first byte, on an input with a NUL byte, and on an input long
    enough to overflow the C result buffer. *)
Lemma hello_c_differs_from_cpp :
  (output_of (trace (run ref_host HelloCpp.hello (ref_init input_late_brace heap_ok)))
     = Some (greeting_json (lit "Y")) /\
   output_of (trace (run ref_host HelloC.hello (ref_init input_late_brace heap_ok)))
     = Some (greeting_json input_late_brace) /\
   greeting_json input_late_brace <> greeting_json (lit "Y")) /\
  (output_of (trace (run ref_host HelloCpp.hello (ref_init input_with_nul heap_ok)))
     = Some (greeting_json input_with_nul) /\
   output_of (trace (run ref_host HelloC.hello (ref_init input_with_nul heap_ok)))
     = Some (greeting_json (lit "a")) /\
   greeting_json (lit "a") <> greeting_json input_with_nul) /\
  (output_of (trace (run ref_host HelloCpp.hello (ref_init input_233 heap_ok)))
     = Some (greeting_json input_233) /\
   output_of (trace (run ref_host HelloC.hello (ref_init input_233 heap_ok)))
     = Some (take 255 (greeting_json input_233)) /\
   take 255 (greeting_json input_233) <> greeting_json input_233).
Proof.
  split; [|split]; (split; [vm_compute; reflexivity|]); (split; [vm_compute; reflexivity|]);
    intros Heq; apply (f_equal List.length) in Heq; vm_compute in Heq; discriminate.
Qed.

(** ** Concrete runs *)

Example find_first_in_bob : find_first quoted_name input_bob = Some 1.
Proof. reflexivity. Qed.

Example name_of_bob : HelloCpp.name_of input_bob = Ret (lit "Bob").
Proof. reflexivity. Qed.

Example name_of_unterminated :
  HelloCpp.name_of (lit "{" ++ quoted_name ++ lit ":" ++ [dquote] ++ lit "Bob") = Ret (lit "World").
Proof. reflexivity. Qed.

Example hello_c_out_of_memory :
  result (run ref_host HelloC.hello (ref_init input_bob (fun _ => false))) = Returned 1%Z /\
  output_of (trace (run ref_host HelloC.hello (ref_init input_bob (fun _ => false)))) = None.
Proof. split; reflexivity. Qed.

Example sample_request_calls :
  trace (run ref_host (Host.http_request sample_request) (ref_init [] heap_ok)) =
  [Ev (extism_var_set (lit "request:method") (lit "POST")) tt;
   Ev (extism_var_set (lit "request:url") (lit "https://example.com/api")) tt;
   Ev (extism_var_set (lit "request:header:Accept") (lit "*/*")) tt;
   Ev (extism_var_set (lit "request:header:X-Id") (lit "7")) tt;
   Ev (extism_var_set (lit "request:body") (lit "payload")) tt;
   Ev (extism_http_request 0) (0%Z, 0%Z)].
Proof. reflexivity. Qed.

Example memory_roundtrip :
  result (run ref_host
            (m <- Memory.ctor 3 ;;
             Memory.store_string_from_start m (lit "abc") ;;
             text <- Memory.to_string m ;;
             Memory.dtor m ;;
             Ret text)
            (ref_init [] heap_ok)) = Returned (lit "abc").
Proof. reflexivity. Qed.

(** * Further properties of the code *)

(** ** [http_method_to_string] *)



(** ** [Memory]: no handle is lost *)

(** X2.  Over any sequence of [Memory] constructions, moves and
    destructions on any host, allocations returning a non-zero offset equal
    its releases plus the live handles that still hold it; once every
    handle has gone out of scope the offset has been released exactly as
    often as it was allocated. *)
Theorem memory_single_owner (H : host) (s : hstate H) (ops : list mem_op) (o : Z) :
  o <> 0%Z ->
  exists objs : gmap nat Memory.t,
    result (run H (exec ops ∅) s) = Returned objs /\
    allocs o (trace (run H (exec ops ∅) s)) =
      frees o (trace (run H (exec ops ∅) s)) + holders o objs /\
    (objs = ∅ ->
     frees o (trace (run H (exec ops ∅) s)) = allocs o (trace (run H (exec ops ∅) s))).
Proof.
  intros Ho. destruct (exec_balance H o Ho ops ∅ s) as (objs & Hres & Hbal).
  rewrite holders_empty in Hbal. exists objs. split; [exact Hres|].
  split; [lia|]. intros ->. rewrite holders_empty in Hbal. lia.
Qed.

Lemma memory_single_owner_witness :
  exists objs : gmap nat Memory.t,
    result (run ref_host (exec move_then_destroy ∅) (ref_init [] heap_ok)) = Returned objs /\
    allocs 1 (trace (run ref_host (exec move_then_destroy ∅) (ref_init [] heap_ok))) =
      frees 1 (trace (run ref_host (exec move_then_destroy ∅) (ref_init [] heap_ok)))
      + holders 1 objs /\
    (objs = ∅ ->
     frees 1 (trace (run ref_host (exec move_then_destroy ∅) (ref_init [] heap_ok)))
     = allocs 1 (trace (run ref_host (exec move_then_destroy ∅) (ref_init [] heap_ok)))).
Proof.
  apply (memory_single_owner ref_host (ref_init [] heap_ok) move_then_destroy 1%Z). lia.
Defined.

(** ** [Host::input] *)

Lemma length_vector_filled (len : nat) (written : bytes) :
  List.length (vector_filled len written) = len.
Proof.
  unfold vector_filled. rewrite length_app, length_take, length_replicate. lia.
Qed.

(** X4.  On any host, [Host::input] asks for the input length once.  When
    the vector for that length cannot be constructed it throws the
    constructor's exception without loading anything.  Otherwise it makes
    one [extism_input_load_u8] from offset 0 for that length and returns a
    vector of exactly that many bytes: what the host wrote, cut or padded
    with zeros to the length. *)
Theorem input_length_respected (H : host) (s : hstate H) :
  let len := (answer H extism_input_length s).1 in
  let s1 := (answer H extism_input_length s).2 in
  match vector_refusal H len s1 with
  | Some what =>
      trace (run H Host.input s) =
        [Ev extism_input_length len; Ev (vector_new len) (Some what)] /\
      result (run H Host.input s) = Thrown what
  | None =>
      let written := (answer H (extism_input_load_u8 0 len) (after_vector H len s1)).1 in
      trace (run H Host.input s) =
        [Ev extism_input_length len]
        ++ (if Nat.eqb len 0 then [] else [Ev (vector_new len) None])
        ++ [Ev (extism_input_load_u8 0 len) written] /\
      result (run H Host.input s) = Returned (vector_filled len written) /\
      List.length (vector_filled len written) = len
  end.
Proof.
  cbv zeta.
  unfold Host.input, vector_refusal, after_vector, new_vector. cbn [bind perform run].
  destruct (answer H extism_input_length s) as [len s1]. cbn [fst snd].
  destruct (Nat.eqb len 0).
  - cbn [bind perform run].
    destruct (answer H (extism_input_load_u8 0 len) s1) as [written s2].
    cbn [run after trace result app fst]. split; [done|]. split; [done|].
    apply length_vector_filled.
  - cbn [bind perform run].
    destruct (answer H (vector_new len) s1) as [[what|] s2]; cbn [fst snd].
    + cbn [bind run after trace result]. done.
    + cbn [bind perform run].
      destruct (answer H (extism_input_load_u8 0 len) s2) as [written s3].
      cbn [run after trace result app fst]. split; [done|]. split; [done|].
      apply length_vector_filled.
Qed.

(** ** Lookups and the handle they receive *)

Section Releases.
Context (H : host).

Lemma frees_fetch {R : Type} (ptr o : Z) (wrap : bytes -> R) (s : hstate H) :
  frees o (trace (run H (len <- perform (extism_length ptr) ;;
                         new_vector len ;;
                         written <- perform (extism_load_u8 ptr 0 len) ;;
                         perform (extism_free ptr) ;;
                         Ret (wrap (vector_filled len written))) s))
  = match vector_refusal H (answer H (extism_length ptr) s).1
                         (answer H (extism_length ptr) s).2 with
    | Some _ => 0
    | None => if Z.eqb ptr o then 1 else 0
    end.
Proof.
  pose proof (run_fetch H ptr wrap s) as Hfetch. cbv zeta in Hfetch.
  destruct (vector_refusal H _ _) as [what|].
  - destruct Hfetch as [-> _]. reflexivity.
  - destruct Hfetch as (written & -> & _).
    rewrite !frees_app.
    replace (frees o [Ev (extism_length ptr) (answer H (extism_length ptr) s).1]) with 0
      by reflexivity.
    replace (frees o (if Nat.eqb (answer H (extism_length ptr) s).1 0 then []
                      else [Ev (vector_new (answer H (extism_length ptr) s).1) None]))
      with 0 by (by destruct (Nat.eqb _ 0)).
    unfold frees. rewrite !filter_cons, filter_nil. simpl.
    by destruct (Z.eqb ptr o).
Qed.

End Releases.

(** X5.  On any host, [Host::var_get] and [Host::config] release nothing for
    the zero handle.  For a non-zero handle they call [extism_free] exactly
    once, on that handle, when the vector for the reported length is
    constructed; when its construction throws they throw too and the handle
    is never released. *)
Theorem lookup_releases_handle (H : host) (s : hstate H) (name key : bytes) (o : Z) :
  (let ptr := (answer H (extism_var_get name) s).1 in
   let s1 := (answer H (extism_var_get name) s).2 in
   frees o (trace (run H (Host.var_get name) s)) =
     if Z.eqb ptr 0 then 0
     else match vector_refusal H (answer H (extism_length ptr) s1).1
                               (answer H (extism_length ptr) s1).2 with
          | Some _ => 0
          | None => if Z.eqb ptr o then 1 else 0
          end) /\
  (let ptr := (answer H (extism_config_get key) s).1 in
   let s1 := (answer H (extism_config_get key) s).2 in
   frees o (trace (run H (Host.config key) s)) =
     if Z.eqb ptr 0 then 0
     else match vector_refusal H (answer H (extism_length ptr) s1).1
                               (answer H (extism_length ptr) s1).2 with
          | Some _ => 0
          | None => if Z.eqb ptr o then 1 else 0
          end).
Proof.
  split; cbv zeta.
  - unfold Host.var_get. rewrite run_bind, run_perform. cbn [result trace final].
    destruct (answer H (extism_var_get name) s) as [ptr s1]. cbn [fst snd].
    destruct (Z.eqb ptr 0); [reflexivity|].
    rewrite frees_app. rewrite (frees_fetch H ptr o Some s1). reflexivity.
  - unfold Host.config. rewrite run_bind, run_perform. cbn [result trace final].
    destruct (answer H (extism_config_get key) s) as [ptr s1]. cbn [fst snd].
    destruct (Z.eqb ptr 0); [reflexivity|].
    rewrite frees_app. rewrite (frees_fetch H ptr o Some s1). reflexivity.
Qed.

(** X6.  On any host, [HttpResponse::body] and [HttpResponse::header]
    release nothing for the zero handle of the variable they read
    ([response:body], [response:header:<name>]).  For a non-zero handle they
    call [extism_free] exactly once, on that handle, when the vector for the
    reported length is constructed; when its construction throws the handle
    is never released. *)
Theorem response_reads_release_handle (H : host) (s : hstate H) (response : HttpResponse.t)
        (name : bytes) (o : Z) :
  (let ptr := (answer H (extism_var_get (lit "response:body")) s).1 in
   let s1 := (answer H (extism_var_get (lit "response:body")) s).2 in
   frees o (trace (run H (HttpResponse.body response) s)) =
     if Z.eqb ptr 0 then 0
     else match vector_refusal H (answer H (extism_length ptr) s1).1
                               (answer H (extism_length ptr) s1).2 with
          | Some _ => 0
          | None => if Z.eqb ptr o then 1 else 0
          end) /\
  (let ptr := (answer H (extism_var_get (lit "response:header:" ++ name)) s).1 in
   let s1 := (answer H (extism_var_get (lit "response:header:" ++ name)) s).2 in
   frees o (trace (run H (HttpResponse.header response name) s)) =
     if Z.eqb ptr 0 then 0
     else match vector_refusal H (answer H (extism_length ptr) s1).1
                               (answer H (extism_length ptr) s1).2 with
          | Some _ => 0
          | None => if Z.eqb ptr o then 1 else 0
          end).
Proof.
  split; cbv zeta.
  - unfold HttpResponse.body. rewrite run_bind, run_perform. cbn [result trace final].
    destruct (answer H (extism_var_get (lit "response:body")) s) as [ptr s1]. cbn [fst snd].
    destruct (Z.eqb ptr 0); [reflexivity|].
    rewrite frees_app. rewrite (frees_fetch H ptr o (fun data => data) s1). reflexivity.
  - unfold HttpResponse.header. rewrite run_bind, run_perform. cbn [result trace final].
    destruct (answer H (extism_var_get (lit "response:header:" ++ name)) s) as [ptr s1].
    cbn [fst snd].
    destruct (Z.eqb ptr 0); [reflexivity|].
    rewrite frees_app. rewrite (frees_fetch H ptr o Some s1). reflexivity.
Qed.

(** ** Lifetimes of [HttpResponse] objects *)

Lemma resp_holders_empty (o : Z) : resp_holders o ∅ = 0.
Proof. unfold resp_holders. by rewrite map_to_list_empty. Qed.

Lemma resp_holders_insert_fresh (o : Z) (objs : gmap nat HttpResponse.t) (a : nat)
      (r : HttpResponse.t) :
  objs !! a = None ->
  resp_holders o (<[a := r]> objs) =
  (if decide (HttpResponse.ptr r = o) then 1 else 0) + resp_holders o objs.
Proof.
  intros Hfresh. unfold resp_holders.
  rewrite (map_to_list_insert objs a r Hfresh), filter_cons. simpl.
  by destruct (decide (HttpResponse.ptr r = o)).
Qed.

Lemma resp_holders_delete (o : Z) (objs : gmap nat HttpResponse.t) (a : nat)
      (r : HttpResponse.t) :
  objs !! a = Some r ->
  resp_holders o objs =
  (if decide (HttpResponse.ptr r = o) then 1 else 0) + resp_holders o (delete a objs).
Proof.
  intros Hlive. unfold resp_holders.
  rewrite <- (map_to_list_delete objs a r Hlive), filter_cons. simpl.
  by destruct (decide (HttpResponse.ptr r = o)).
Qed.

Lemma resp_holders_replace (o : Z) (objs : gmap nat HttpResponse.t) (a : nat)
      (old new : HttpResponse.t) :
  objs !! a = Some old ->
  resp_holders o (<[a := new]> objs) + (if decide (HttpResponse.ptr old = o) then 1 else 0) =
  (if decide (HttpResponse.ptr new = o) then 1 else 0) + resp_holders o objs.
Proof.
  intros Hlive.
  rewrite <- (insert_delete_eq objs a new).
  rewrite resp_holders_insert_fresh by apply lookup_delete_eq.
  rewrite (resp_holders_delete o objs a old Hlive). lia.
Qed.

Lemma wraps_cons (o : Z) (op : resp_op) (ops : list resp_op) :
  wraps o (op :: ops) = (if is_wrap o op then 1 else 0) + wraps o ops.
Proof.
  unfold wraps. rewrite filter_cons.
  destruct (is_wrap o op); simpl; reflexivity.
Qed.

Section ResponseOwnership.
Context (H : host) (o : Z) (Ho : o <> 0%Z).

Lemma exec_resp_op_balance (op : resp_op) (objs : gmap nat HttpResponse.t)
      (p : prog (gmap nat HttpResponse.t)) (s : hstate H) :
  exec_resp_op op objs = Some p ->
  exists objs',
    result (run H p s) = Returned objs' /\
    allocs o (trace (run H p s)) = 0 /\
    frees o (trace (run H p s)) + resp_holders o objs' =
    (if is_wrap o op then 1 else 0) + resp_holders o objs.
Proof.
  destruct op as [a ptr|a b|a b|a]; simpl.
  - destruct (objs !! a) eqn:Ha; [done|]. intros [= <-].
    eexists; split; [reflexivity|]. split; [reflexivity|]. simpl.
    rewrite resp_holders_insert_fresh by done. simpl.
    unfold frees; simpl.
    destruct (Z.eqb_spec ptr o); destruct (decide (ptr = o)); simpl; congruence.
  - destruct (objs !! a) eqn:Ha; [done|].
    destruct (objs !! b) as [other|] eqn:Hb; [|done]. intros [= <-].
    eexists; split; [reflexivity|]. split; [reflexivity|]. simpl.
    assert (a <> b) by congruence.
    rewrite resp_holders_insert_fresh by (by rewrite lookup_insert_ne).
    pose proof (resp_holders_replace o objs b other (HttpResponse.Build 0) Hb) as Hr.
    simpl in *. destruct (decide (0%Z = o)); [congruence|].
    unfold frees; simpl. lia.
  - destruct (objs !! a) as [this|] eqn:Ha; [|done].
    destruct (objs !! b) as [other|] eqn:Hb; [|done].
    destruct (decide (a = b)) as [->|Hab]; intros [= <-].
    + eexists; split; [reflexivity|]. split; [reflexivity|]. simpl.
      unfold frees; simpl. lia.
    + pose proof (resp_holders_replace o objs b other (HttpResponse.Build 0) Hb) as Hr.
      pose proof (resp_holders_replace o (<[b := HttpResponse.Build 0]> objs) a this
                    (HttpResponse.Build (HttpResponse.ptr other))) as Hr'.
      rewrite lookup_insert_ne in Hr' by done. specialize (Hr' Ha).
      simpl in *. destruct (decide (0%Z = o)); [congruence|].
      unfold HttpResponse.move_assign.
      destruct (Z.eqb_spec (HttpResponse.ptr this) 0) as [Hz|Hz]; simpl.
      * eexists; split; [reflexivity|]. split; [reflexivity|]. simpl.
        destruct (decide (HttpResponse.ptr this = o)); [congruence|].
        unfold frees; simpl. lia.
      * destruct (answer H (extism_free (HttpResponse.ptr this)) s) as [x s'].
        eexists; split; [reflexivity|]. split; [reflexivity|]. simpl.
        change (Ev (extism_free (HttpResponse.ptr this)) x :: [])
          with ([Ev (extism_free (HttpResponse.ptr this)) x]).
        rewrite frees_free.
        destruct (decide (HttpResponse.ptr this = o)); lia.
  - destruct (objs !! a) as [this|] eqn:Ha; [|done]. intros [= <-].
    unfold HttpResponse.dtor. simpl.
    destruct (answer H (extism_free (HttpResponse.ptr this)) s) as [x s'].
    eexists; split; [reflexivity|]. split; [reflexivity|]. simpl.
    rewrite frees_free, (resp_holders_delete o objs a this Ha). lia.
Qed.

Lemma exec_resp_balance (ops : list resp_op) (objs : gmap nat HttpResponse.t) (s : hstate H) :
  exists objs',
    result (run H (exec_resp ops objs) s) = Returned objs' /\
    frees o (trace (run H (exec_resp ops objs) s)) + resp_holders o objs' <=
    wraps o ops + resp_holders o objs.
Proof.
  revert objs s. induction ops as [|op rest IH]; intros objs s; simpl.
  - eexists; split; [reflexivity|]. simpl. unfold frees, wraps; simpl. lia.
  - rewrite wraps_cons. destruct (exec_resp_op op objs) as [p|] eqn:Hop.
    + destruct (exec_resp_op_balance op objs p s Hop) as (objs1 & Hres & _ & Hbal).
      rewrite run_bind, Hres. simpl.
      destruct (IH objs1 (final (run H p s))) as (objs2 & Hres2 & Hbal2).
      exists objs2. split; [done|]. rewrite frees_app. lia.
    + eexists; split; [reflexivity|]. simpl. unfold frees; simpl. lia.
Qed.

End ResponseOwnership.

(** X8.  Moving from an [HttpResponse], by move construction or by move
    assignment between two distinct objects, hands its handle to the target
    and leaves handle 0 in the source.  Over any sequence of constructions
    from a handle, moves and destructions, on any host, a non-zero handle is
    released no more often than it was wrapped in a response: at most once
    when it was wrapped once. *)
Theorem response_release_at_most_once :
  (forall other : HttpResponse.t,
      HttpResponse.move_ctor other = (other, HttpResponse.Build 0)) /\
  (forall (H : host) (s : hstate H) (this other : HttpResponse.t),
      result (run H (HttpResponse.move_assign this other) s) =
      Returned (other, HttpResponse.Build 0)) /\
  (forall (H : host) (s : hstate H) (ops : list resp_op) (o : Z),
      o <> 0%Z ->
      frees o (trace (run H (exec_resp ops ∅) s)) <= wraps o ops).
Proof.
  split; [|split].
  - by intros [ptr].
  - intros H s this [ptr]. unfold HttpResponse.move_assign.
    destruct (Z.eqb (HttpResponse.ptr this) 0); simpl; [done|].
    by destruct (answer H (extism_free (HttpResponse.ptr this)) s).
  - intros H s ops o Ho.
    destruct (exec_resp_balance H o Ho ops ∅ s) as (objs' & _ & Hbal).
    rewrite resp_holders_empty in Hbal. lia.
Qed.

Lemma response_release_witness :
  7%Z <> 0%Z /\
  frees 7 (trace (run ref_host (exec_resp wrap_move_destroy ∅) (ref_init [] heap_ok))) <=
  wraps 7 wrap_move_destroy.
Proof.
  split; [lia|].
  apply (proj2 (proj2 response_release_at_most_once)
           ref_host (ref_init [] heap_ok) wrap_move_destroy 7%Z).
  lia.
Defined.

(** ** [Memory::from_string] and [Memory::to_string] *)

Lemma ref_to_string (s : ref_state) (m : Memory.t) (v : bytes) :
  rs_blocks s !! Memory.offset m = Some v ->
  result (run ref_host (Memory.to_string m) s) = Returned v.
Proof.
  intros Hv. unfold Memory.to_string, Memory.load_all, Memory.len, Memory.load.
  rewrite run_bind, run_perform. cbn [result trace final answer ref_host ref_answer fst snd].
  rewrite run_bind, ref_new_vector. cbn [result trace final].
  rewrite run_bind, run_perform. cbn [result trace final answer ref_host ref_answer fst snd].
  cbn [run result].
  unfold block. rewrite Hv. cbn [default]. cbv [id].
  by rewrite drop_0, firstn_all, vector_filled_exact.
Qed.

Lemma ref_from_string (s : ref_state) (elide : bool) (str : bytes) :
  result (run ref_host (Memory.from_string elide str) s)
    = Returned (Memory.Build (Zpos (rs_next s)) (List.length str)) /\
  rs_blocks (final (run ref_host (Memory.from_string elide str) s)) !! Zpos (rs_next s)
    = Some str.
Proof.
  assert (Hblock : take 0 (replicate (List.length str) NUL) ++ str
                   ++ drop (0 + List.length str) (replicate (List.length str) NUL) = str).
  { rewrite take_0, drop_ge by (rewrite length_replicate; lia). simpl. apply app_nil_r. }
  destruct elide.
  - split; [reflexivity|].
    unfold Memory.from_string, Memory.ctor, Memory.store_string_from_start,
      Memory.store_string.
    cbn [bind perform run after final answer ref_host ref_answer new_block fst snd
         Memory.offset Memory.length].
    unfold block, with_blocks. cbn [rs_blocks].
    rewrite !lookup_insert_eq. cbn [default]. cbv [id]. by rewrite Hblock.
  - split; [reflexivity|].
    unfold Memory.from_string, Memory.ctor, Memory.store_string_from_start,
      Memory.store_string, Memory.move_ctor, Memory.dtor.
    cbn [bind perform run after final answer ref_host ref_answer new_block fst snd
         Memory.offset Memory.length].
    unfold block, with_blocks. cbn [rs_blocks].
    rewrite lookup_insert_eq. cbn [default]. cbv [id]. rewrite Hblock.
    rewrite lookup_delete_ne by done. by rewrite lookup_insert_eq.
Qed.

(** X9.  On the reference host, [Memory::from_string(str)] allocates a
    block of [str.size()] bytes and returns a handle with a non-zero offset
    and [length = str.size()], and [to_string] on that handle gives back
    [str] byte for byte, whether or not the compiler elides the copy of the
    returned local. *)
Theorem from_string_to_string (s : ref_state) (elide : bool) (str : bytes) :
  exists m : Memory.t,
    result (run ref_host (Memory.from_string elide str) s) = Returned m /\
    Memory.offset m <> 0%Z /\
    Memory.length m = List.length str /\
    result (run ref_host (m <- Memory.from_string elide str ;; Memory.to_string m) s)
      = Returned str.
Proof.
  exists (Memory.Build (Zpos (rs_next s)) (List.length str)).
  destruct (ref_from_string s elide str) as [Hres Hfinal].
  split; [exact Hres|]. split; [done|]. split; [reflexivity|].
  rewrite run_bind, Hres. cbn [result].
  by apply ref_to_string.
Qed.

(** ** [Host::http_request] and the variable store of the reference host *)

Lemma ref_set_headers_final (hs : list (bytes * bytes)) (s : ref_state) :
  final (run ref_host (Host.set_headers hs) s) = foldl set_header_var s hs.
Proof.
  revert s. induction hs as [|[key value] rest IH]; intros s; [done|].
  cbn [Host.set_headers]. unfold Host.var_set_string.
  rewrite run_bind, run_perform. cbn [result final]. rewrite IH. done.
Qed.

Lemma headers_keep_other (hs : list (bytes * bytes)) (s : ref_state) (name : bytes) :
  (forall key, lit "request:header:" ++ key <> name) ->
  rs_vars (foldl set_header_var s hs) !! name = rs_vars s !! name.
Proof.
  intros Hname. revert s. induction hs as [|[key value] rest IH]; intros s; [done|].
  cbn [foldl]. rewrite IH. unfold set_header_var, with_vars. cbn [rs_vars fst snd].
  rewrite lookup_insert_ne by apply Hname. done.
Qed.

Lemma headers_set (hs : list (bytes * bytes)) (s : ref_state) (key value : bytes) :
  NoDup hs.*1 -> (key, value) ∈ hs ->
  rs_vars (foldl set_header_var s hs) !! (lit "request:header:" ++ key) = Some value.
Proof.
  revert s. induction hs as [|[k v] rest IH]; intros s Hnd Hin.
  - by apply elem_of_nil in Hin.
  - apply NoDup_cons in Hnd as [Hk Hnd].
    apply elem_of_cons in Hin as [[= -> ->]|Hin].
    + assert (Hkeep : forall st, rs_vars (foldl set_header_var st rest)
                                 !! (lit "request:header:" ++ k) =
                                 rs_vars st !! (lit "request:header:" ++ k)).
      { clear IH Hnd. induction rest as [|[k' v'] rest IH']; intros st; [done|].
        cbn [foldl]. rewrite IH'.
        - unfold set_header_var, with_vars. cbn [rs_vars fst snd].
          rewrite lookup_insert_ne; [done|].
          intros Heq%app_inv_head. apply Hk. rewrite <- Heq. cbn [fmap list_fmap fst].
          left.
        - intros Hin. apply Hk. cbn [fmap list_fmap fst]. by right. }
      cbn [foldl]. rewrite Hkeep. unfold set_header_var, with_vars. cbn [rs_vars fst snd].
      apply lookup_insert_eq.
    + cbn [foldl]. by apply IH.
Qed.

Lemma ref_http_request_final (request : HttpRequest) (s : ref_state) :
  rs_vars (final (run ref_host (Host.http_request request) s)) =
  let s1 := with_vars s (<[lit "request:method" := http_method_to_string (method request)]>
                           (rs_vars s)) in
  let s2 := with_vars s1 (<[lit "request:url" := url request]> (rs_vars s1)) in
  let s3 := foldl set_header_var s2 (headers request) in
  match body request with
  | Some b => <[lit "request:body" := b]> (rs_vars s3)
  | None => rs_vars s3
  end.
Proof.
  unfold Host.http_request, Host.var_set_string, Host.var_set.
  rewrite run_bind, run_perform. cbn [result final answer ref_host ref_answer fst snd].
  rewrite run_bind, run_perform. cbn [result final answer ref_host ref_answer fst snd].
  rewrite run_bind.
  destruct (run_set_headers ref_host (headers request)
              (with_vars (with_vars s (<[lit "request:method" :=
                                           http_method_to_string (method request)]> (rs_vars s)))
                 (<[lit "request:url" := url request]>
                    (rs_vars (with_vars s (<[lit "request:method" :=
                                                http_method_to_string (method request)]>
                                             (rs_vars s)))))))
    as [_ Hres].
  rewrite Hres. cbn [result final]. rewrite ref_set_headers_final.
  rewrite run_bind.
  destruct (body request) as [b|].
  - rewrite run_perform. cbn [result final answer ref_host ref_answer fst snd].
    rewrite run_bind, run_perform. cbn [result final answer ref_host ref_answer fst snd].
    destruct (rs_http _) as [status response_ptr].
    by destruct (Z.eqb status 0).
  - cbn [run result final].
    rewrite run_bind, run_perform. cbn [result final answer ref_host ref_answer fst snd].
    destruct (rs_http _) as [status response_ptr].
    by destruct (Z.eqb status 0).
Qed.

(** X10.  On the reference host, whether or not the request succeeds,
    [Host::http_request] leaves the request readable in the variable store:
    [request:method] holds the string form of the method, [request:url] the
    URL, and [request:header:<name>] the value of every header of the map.
    [request:body] holds the body when one is present; when none is present
    the variable is not cleared and keeps whatever an earlier request left
    in it. *)
Theorem http_request_variables (s : ref_state) (request : HttpRequest) :
  NoDup (headers request).*1 ->
  rs_vars (final (run ref_host (Host.http_request request) s)) !! lit "request:method"
    = Some (http_method_to_string (method request)) /\
  rs_vars (final (run ref_host (Host.http_request request) s)) !! lit "request:url"
    = Some (url request) /\
  (forall key value,
      (key, value) ∈ headers request ->
      rs_vars (final (run ref_host (Host.http_request request) s))
        !! (lit "request:header:" ++ key) = Some value) /\
  rs_vars (final (run ref_host (Host.http_request request) s)) !! lit "request:body"
    = match body request with
      | Some b => Some b
      | None => rs_vars s !! lit "request:body"
      end.
Proof.
  intros Hnd. rewrite ref_http_request_final. cbv zeta.
  assert (Hm : forall key, lit "request:header:" ++ key <> lit "request:method")
    by (intros key; discriminate).
  assert (Hu : forall key, lit "request:header:" ++ key <> lit "request:url")
    by (intros key; discriminate).
  assert (Hb : forall key, lit "request:header:" ++ key <> lit "request:body")
    by (intros key; discriminate).
  split; [|split; [|split]].
  - destruct (body request); [rewrite lookup_insert_ne by discriminate|];
      rewrite headers_keep_other by done; unfold with_vars; cbn [rs_vars];
      rewrite lookup_insert_ne by discriminate; apply lookup_insert_eq.
  - destruct (body request); [rewrite lookup_insert_ne by discriminate|];
      rewrite headers_keep_other by done; unfold with_vars; cbn [rs_vars];
      apply lookup_insert_eq.
  - intros key value Hin.
    destruct (body request);
      [rewrite lookup_insert_ne by (intros Heq; symmetry in Heq; by apply Hb in Heq)|];
      by apply headers_set.
  - destruct (body request); [apply lookup_insert_eq|].
    rewrite headers_keep_other by done. unfold with_vars. cbn [rs_vars].
    by rewrite !lookup_insert_ne by discriminate.
Qed.

Lemma http_request_variables_witness :
  rs_vars (final (run ref_host (Host.http_request sample_request) (ref_init [] heap_ok)))
    !! (lit "request:header:" ++ lit "X-Id") = Some (lit "7") /\
  rs_vars (final (run ref_host (Host.http_request sample_request) (ref_init [] heap_ok)))
    !! lit "request:body" = Some (lit "payload").
Proof.
  destruct (http_request_variables (ref_init [] heap_ok) sample_request)
    as (_ & _ & Hheaders & Hbody).
  - simpl. repeat constructor; rewrite ?elem_of_cons, ?elem_of_nil; intros Hin.
    + by destruct Hin as [[=]|[]].
    + done.
  - split; [|exact Hbody]. apply Hheaders. simpl. right. left.
Defined.

(** ** The C++ example on any host *)

Lemma outputs_app (tr1 tr2 : list event) : outputs (tr1 ++ tr2) = outputs tr1 ++ outputs tr2.
Proof. apply omap_app. Qed.

Lemma errors_app (tr1 tr2 : list event) : errors (tr1 ++ tr2) = errors tr1 ++ errors tr2.
Proof. apply omap_app. Qed.

(** X11.  On any host the C++ [hello] logs its debug line and asks for
    the input length.  When the vector for that length cannot be
    constructed, the exception reaches the handler: the function reports
    [Error in hello function: <what>] through [extism_error_set], sets no
    output and returns status 1.  Otherwise it loads the input once, logs
    the greeting and sets it as its single output, the greeting document for
    the name chosen from the bytes the host wrote (cut or padded with zeros
    to the reported length); it returns status 0 and reports no error.
    [substr] never throws here.  Allocation failures of [std::string] are
    not modelled. *)
Theorem hello_cpp_outcome (H : host) (s : hstate H) :
  let s1 := (answer H (extism_log_debug (lit "Hello function called")) s).2 in
  let len := (answer H extism_input_length s1).1 in
  let s2 := (answer H extism_input_length s1).2 in
  match vector_refusal H len s2 with
  | Some what =>
      trace (run H HelloCpp.hello s) =
        [Ev (extism_log_debug (lit "Hello function called")) tt;
         Ev extism_input_length len;
         Ev (vector_new len) (Some what);
         Ev (extism_error_set (lit "Error in hello function: " ++ what)) tt] /\
      result (run H HelloCpp.hello s) = Returned 1%Z /\
      outputs (trace (run H HelloCpp.hello s)) = [] /\
      errors (trace (run H HelloCpp.hello s)) = [lit "Error in hello function: " ++ what]
  | None =>
      let written := (answer H (extism_input_load_u8 0 len) (after_vector H len s2)).1 in
      exists name : bytes,
        HelloCpp.name_of (vector_filled len written) = Ret name /\
        trace (run H HelloCpp.hello s) =
          [Ev (extism_log_debug (lit "Hello function called")) tt;
           Ev extism_input_length len]
          ++ (if Nat.eqb len 0 then [] else [Ev (vector_new len) None])
          ++ [Ev (extism_input_load_u8 0 len) written;
              Ev (extism_log_info (lit "Created greeting: " ++ lit "Hello, " ++ name ++ lit "!")) tt;
              Ev (extism_output_set (greeting_json name)) tt] /\
        result (run H HelloCpp.hello s) = Returned 0%Z /\
        outputs (trace (run H HelloCpp.hello s)) = [greeting_json name] /\
        errors (trace (run H HelloCpp.hello s)) = []
  end.
Proof.
  cbv zeta.
  unfold HelloCpp.hello. rewrite run_try_catch.
  unfold Host.log_debug, Host.input_string, Host.input, Host.log_info, Host.output_string,
    Host.error, vector_refusal, after_vector, new_vector.
  cbn [bind perform run].
  destruct (answer H (extism_log_debug _) s) as [[] s1]. cbn [fst snd].
  cbn [bind perform run].
  destruct (answer H extism_input_length s1) as [len s2]. cbn [fst snd].
  destruct (Nat.eqb len 0).
  - cbn [bind perform run].
    destruct (answer H (extism_input_load_u8 0 len) s2) as [written s3].
    cbn [bind perform run fst].
    destruct (cpp_name_total (vector_filled len written)) as (name & Hname & _).
    exists name. rewrite Hname. cbn [bind perform run].
    destruct (answer H (extism_log_info _) s3) as [[] s4].
    cbn [bind perform run].
    destruct (answer H (extism_output_set _) s4) as [[] s5].
    cbn [run after trace result app].
    split; [reflexivity|].
    unfold greeting_json. rewrite <- !app_assoc.
    repeat split; reflexivity.
  - cbn [bind perform run].
    destruct (answer H (vector_new len) s2) as [[what|] s3]; cbn [fst snd].
    + cbn [bind perform run after trace result final].
      destruct (answer H (extism_error_set _) s3) as [[] s4].
      cbn [run after trace result app].
      repeat split; reflexivity.
    + cbn [bind perform run].
      destruct (answer H (extism_input_load_u8 0 len) s3) as [written s4].
      cbn [bind perform run fst].
      destruct (cpp_name_total (vector_filled len written)) as (name & Hname & _).
      exists name. rewrite Hname. cbn [bind perform run].
      destruct (answer H (extism_log_info _) s4) as [[] s5].
      cbn [bind perform run].
      destruct (answer H (extism_output_set _) s5) as [[] s6].
      cbn [run after trace result app].
      split; [reflexivity|].
      unfold greeting_json. rewrite <- !app_assoc.
      repeat split; reflexivity.
Qed.

(** ** What the C++ example extracts *)

Lemma find_first_char_before (c : ascii) (s : bytes) (i : nat) :
  find_first [c] s = Some i -> c ∉ take i s.
Proof.
  revert i. induction s as [|b s IH]; intros i; simpl; [done|].
  destruct (Ascii.eqb_spec c b) as [->|Hne]; simpl.
  - intros [= <-]. apply not_elem_of_nil.
  - destruct (find_first [c] s) as [k|]; [|done]. simpl. intros [= <-].
    simpl. apply not_elem_of_cons. split; [done|]. by apply IH.
Qed.

(** X12.  Whenever the input contains [{] and the quoted key [name], the
    name the C++ example chooses contains no quote character: it is either
    the default [World] or the bytes strictly between two consecutive
    quotes of the input. *)
Theorem json_name_has_no_quote (input : bytes) :
  "{"%char ∈ input ->
  found (find_first quoted_name input) = true ->
  exists name, HelloCpp.name_of input = Ret name /\ dquote ∉ name.
Proof.
  intros Hbrace Hkey.
  assert (Hne : input <> []) by (intros ->; by apply elem_of_nil in Hbrace).
  rewrite name_of_nonempty by done. rewrite !find_zero.
  apply (find_first_char_found "{"%char) in Hbrace.
  change [ "{"%char ] with (lit "{") in Hbrace. rewrite Hbrace, Hkey. cbn [andb].
  assert (Hworld : dquote ∉ lit "World") by compute_done.
  destruct (find input [dquote] (find input (lit ":") (find_first quoted_name input)))
    as [pos|] eqn:Hpos; [|by exists (lit "World")].
  apply find_Some_bound in Hpos as (_ & _ & _ & Hlt); [|done].
  destruct (find input [dquote] (Some (pos + 1))) as [end_|] eqn:Hend;
    [|by exists (lit "World")].
  unfold substr. destruct (Nat.leb_spec (pos + 1) (List.length input)); [|lia].
  eexists. split; [reflexivity|].
  rewrite find_from in Hend by lia.
  destruct (find_first [dquote] (drop (pos + 1) input)) as [k|] eqn:Hk; [|done].
  injection Hend as <-.
  replace (pos + 1 + k - pos - 1) with k by lia.
  by apply find_first_char_before.
Qed.

Lemma json_name_has_no_quote_witness :
  exists name, HelloCpp.name_of input_two_names = Ret name /\ dquote ∉ name.
Proof.
  apply (json_name_has_no_quote input_two_names).
  - compute_done.
  - reflexivity.
Defined.

Lemma find_first_char_absent (c : ascii) (s : bytes) :
  c ∉ s -> find_first [c] s = None.
Proof.
  intros Hc. destruct (find_first [c] s) eqn:Hf; [|done].
  exfalso. apply Hc. apply find_first_char_found. by rewrite Hf.
Qed.

Lemma cpp_name_unfinished (input : bytes) (i : nat) :
  "{"%char ∈ input ->
  find_first quoted_name input = Some i ->
  (":"%char ∉ drop i input \/
   exists j, find_first [":"%char] (drop i input) = Some j /\
     (dquote ∉ drop (i + j) input \/
      exists k, find_first [dquote] (drop (i + j) input) = Some k /\
        dquote ∉ drop (i + j + k + 1) input)) ->
  HelloCpp.name_of input = Ret (lit "World").
Proof.
  intros Hbrace Hkey Hshape.
  assert (Hne : input <> []) by (intros ->; by apply elem_of_nil in Hbrace).
  rewrite name_of_nonempty by done. rewrite !find_zero.
  apply (find_first_char_found "{"%char) in Hbrace.
  change [ "{"%char ] with (lit "{") in Hbrace. rewrite Hbrace, Hkey. cbn [andb found].
  assert (Hi : i < List.length input) by (by apply (find_first_bound quoted_name)).
  rewrite (find_from _ (lit ":")) by lia. change (lit ":") with [":"%char].
  destruct Hshape as [Hcolon|(j & Hj & Hshape)].
  { by rewrite find_first_char_absent. }
  rewrite Hj. cbn [fmap option_fmap option_map].
  assert (Hjlen : i + j < List.length input).
  { apply find_first_bound in Hj; [|done]. rewrite length_drop in Hj. lia. }
  rewrite find_from by lia.
  destruct Hshape as [Hquote|(k & Hk & Hquote)].
  { by rewrite find_first_char_absent. }
  rewrite Hk. cbn [fmap option_fmap option_map].
  assert (Hklen : i + j + k < List.length input).
  { apply find_first_bound in Hk; [|done]. rewrite length_drop in Hk. lia. }
  rewrite find_from by lia.
  by rewrite find_first_char_absent.
Qed.

(** X13.  An input that looks like JSON but whose [name] member is not
    finished is greeted as [World], not rejected.  Let the first quoted key
    [name] be at index [i] of an input that contains [{].  When no colon
    follows at or after [i], or no quote follows the first such colon, or
    no second quote follows the first such quote, the C++ example writes the
    greeting document for [World] and returns 0.  So does the C example of
    [cpp-pdk] when in addition the input starts with [{], has no NUL byte,
    is short enough for [input_len + 1] not to wrap, and its allocations
    succeed. *)
Theorem unfinished_json_greets_world (s : ref_state) (i : nat) :
  "{"%char ∈ rs_input s ->
  find_first quoted_name (rs_input s) = Some i ->
  (":"%char ∉ drop i (rs_input s) \/
   exists j, find_first [":"%char] (drop i (rs_input s)) = Some j /\
     (dquote ∉ drop (i + j) (rs_input s) \/
      exists k, find_first [dquote] (drop (i + j) (rs_input s)) = Some k /\
        dquote ∉ drop (i + j + k + 1) (rs_input s))) ->
  HelloCpp.name_of (rs_input s) = Ret (lit "World") /\
  output_of (trace (run ref_host HelloCpp.hello s)) = Some (greeting_json (lit "World")) /\
  result (run ref_host HelloCpp.hello s) = Returned 0%Z /\
  (head (rs_input s) = Some "{"%char -> NUL ∉ rs_input s ->
   (Z.of_nat (List.length (rs_input s)) <= max_input_len)%Z ->
   (forall n, rs_heap s n = true) ->
   output_of (trace (run ref_host HelloC.hello s)) = Some (greeting_json (lit "World")) /\
   result (run ref_host HelloC.hello s) = Returned 0%Z).
Proof.
  intros Hbrace Hkey Hshape.
  pose proof (cpp_name_unfinished _ i Hbrace Hkey Hshape) as Hname.
  split; [exact Hname|].
  destruct (output_of_hello_cpp s _ Hname) as [Hout Hres].
  split; [exact Hout|]. split; [exact Hres|].
  intros Hhead Hnul _ Hheap.
  assert (Hne : rs_input s <> []) by (intros Hnil; by rewrite Hnil in Hhead).
  destruct (hello_c_follows_cpp s _ Hne Hnul Hheap (fun _ => Hhead) Hname) as [Hcout Hcres].
  split; [|exact Hcres]. rewrite Hcout. by rewrite take_greeting_json by (simpl; lia).
Qed.

Lemma unfinished_json_greets_world_witness :
  output_of (trace (run ref_host HelloCpp.hello (ref_init input_cut_off heap_ok)))
    = Some (greeting_json (lit "World")) /\
  output_of (trace (run ref_host HelloC.hello (ref_init input_cut_off heap_ok)))
    = Some (greeting_json (lit "World")).
Proof.
  destruct (unfinished_json_greets_world (ref_init input_cut_off heap_ok) 8)
    as (_ & Hcpp & _ & Hc).
  - compute_done.
  - reflexivity.
  - right. exists 6. split; [reflexivity|].
    right. exists 1. split; [reflexivity|compute_done].
  - split; [exact Hcpp|].
    apply Hc; [reflexivity|compute_done|unfold max_input_len; simpl; lia|done].
Defined.

(** ** The two exits of the C example of [cpp-pdk] *)

Section CExample.
Context (H : host).

Lemma quiet_ret {R : Type} (r : R) : quiet H (Ret r).
Proof. intros s. simpl. eauto. Qed.

Lemma quiet_perform {X : Type} (c : call X) :
  (forall x, output_data (Ev c x) = None /\ error_data (Ev c x) = None) ->
  quiet H (perform c).
Proof.
  intros Hc s. rewrite run_perform. cbn [trace result].
  destruct (Hc (answer H c s).1) as [Ho He].
  unfold outputs, errors. cbn [omap list_omap]. rewrite Ho, He. eauto.
Qed.

Lemma quiet_bind {A B : Type} (p : prog A) (f : A -> prog B) :
  quiet H p -> (forall a, quiet H (f a)) -> quiet H (bind p f).
Proof.
  intros Hp Hf s. rewrite run_bind.
  destruct (Hp s) as (Ho & He & a & Hres). rewrite Hres. cbn [trace result].
  destruct (Hf a (final (run H p s))) as (Ho' & He' & Hr').
  rewrite outputs_app, errors_app, Ho, He, Ho', He'. done.
Qed.

Lemma clean_exit_bind {A : Type} (p : prog A) (f : A -> prog Z) :
  quiet H p -> (forall a s, clean_exit (run H (f a) s)) ->
  forall s, clean_exit (run H (bind p f) s).
Proof.
  intros Hp Hf s. rewrite run_bind.
  destruct (Hp s) as (Ho & He & a & Hres). rewrite Hres.
  unfold clean_exit. cbn [trace result].
  rewrite outputs_app, errors_app, Ho, He. cbn [app].
  apply (Hf a (final (run H p s))).
Qed.

Lemma quiet_malloc (size : nat) : quiet H (perform (malloc size)).
Proof. by apply quiet_perform. Qed.

Lemma quiet_strdup (buf : bytes) : quiet H (HelloC.strdup buf).
Proof.
  unfold HelloC.strdup. apply quiet_bind; [apply quiet_malloc|].
  intros got. apply quiet_ret.
Qed.

Lemma quiet_name_of (input_len : nat) (input_buf : bytes) :
  quiet H (HelloC.name_of input_len input_buf).
Proof.
  unfold HelloC.name_of.
  repeat match goal with
         | |- quiet H (if ?b then _ else _) => destruct b
         | |- quiet H (match ?o with Some _ => _ | None => _ end) => destruct o
         end;
    try apply quiet_strdup.
  apply quiet_bind; [apply quiet_malloc|].
  intros [|]; [apply quiet_ret|apply quiet_strdup].
Qed.

Lemma clean_exit_finish (name : option bytes) (s : hstate H) :
  clean_exit (run H (HelloC.finish name) s).
Proof.
  destruct name as [name|].
  - destruct (run_finish H name s) as (log & Htr & Hres).
    left. rewrite Htr, Hres. split; [done|]. split; [done|]. by exists name.
  - right. unfold HelloC.finish. cbn [bind perform run].
    destruct (answer H (extism_error_set _) s) as [[] s1].
    cbn [run after trace result]. done.
Qed.

Lemma clean_exit_hello (s : hstate H) : clean_exit (run H HelloC.hello s).
Proof.
  unfold HelloC.hello.
  apply clean_exit_bind; [by apply quiet_perform|]. intros _.
  apply clean_exit_bind; [by apply quiet_perform|]. intros input_len.
  destruct (Nat.eqb input_len 0).
  - apply clean_exit_bind; [apply quiet_strdup|]. intros name. apply clean_exit_finish.
  - apply clean_exit_bind; [apply quiet_malloc|]. intros [|]; cbn [negb].
    + apply clean_exit_bind; [by apply quiet_perform|]. intros written.
      apply clean_exit_bind; [apply quiet_name_of|]. intros name. apply clean_exit_finish.
    + intros s1. right. cbn [bind perform run].
      destruct (answer H (extism_error_set _) s1) as [[] s2].
      cbn [run after trace result]. done.
Qed.

End CExample.

Lemma c_str_app_nul (u rest : bytes) : c_str (u ++ NUL :: rest) = c_str u.
Proof.
  induction u as [|b u IH]; simpl; [done|].
  destruct (Ascii.eqb b NUL); [done|]. by rewrite IH.
Qed.

Lemma length_c_str (buf : bytes) : List.length (c_str buf) <= List.length buf.
Proof.
  induction buf as [|b buf IH]; simpl; [lia|].
  destruct (Ascii.eqb b NUL); simpl; lia.
Qed.

Lemma length_c_str_snprintf (size : nat) (text : bytes) :
  List.length (c_str (snprintf size text)) <= size - 1.
Proof.
  unfold snprintf. rewrite c_str_app_nul.
  etransitivity; [apply length_c_str|]. rewrite length_take. lia.
Qed.

(** X14.  On the reference host, for every input short enough for
    [input_len + 1] not to wrap and whatever the allocator answers, the C
    example of [cpp-pdk] returns a status and ends in one of two ways.
    Either it returns 0, has set the output exactly once and reported no
    error, and the output has at most 255 bytes and no NUL byte; or it
    returns 1, has reported exactly the error [Memory allocation failed]
    and has set no output. *)
Theorem hello_c_exit_discipline (s : ref_state) :
  (Z.of_nat (List.length (rs_input s)) <= max_input_len)%Z ->
  (result (run ref_host HelloC.hello s) = Returned 0%Z /\
   errors (trace (run ref_host HelloC.hello s)) = [] /\
   exists out,
     outputs (trace (run ref_host HelloC.hello s)) = [out] /\
     List.length out <= 255 /\ NUL ∉ out) \/
  (result (run ref_host HelloC.hello s) = Returned 1%Z /\
   outputs (trace (run ref_host HelloC.hello s)) = [] /\
   errors (trace (run ref_host HelloC.hello s)) = [lit "Memory allocation failed"]).
Proof.
  intros _.
  destruct (clean_exit_hello ref_host s) as [(Hres & Herr & name & Hout)|Hfail].
  - left. split; [exact Hres|]. split; [exact Herr|].
    eexists. split; [exact Hout|]. split.
    + apply (length_c_str_snprintf 256).
    + apply c_str_no_nul.
  - by right.
Qed.

Lemma hello_c_exit_discipline_witness :
  (result (run ref_host HelloC.hello (ref_init input_256 heap_second_fails)) = Returned 0%Z /\
   errors (trace (run ref_host HelloC.hello (ref_init input_256 heap_second_fails))) = [] /\
   exists out,
     outputs (trace (run ref_host HelloC.hello (ref_init input_256 heap_second_fails)))
       = [out] /\
     List.length out <= 255 /\ NUL ∉ out) \/
  (result (run ref_host HelloC.hello (ref_init input_256 heap_second_fails)) = Returned 1%Z /\
   outputs (trace (run ref_host HelloC.hello (ref_init input_256 heap_second_fails))) = [] /\
   errors (trace (run ref_host HelloC.hello (ref_init input_256 heap_second_fails)))
     = [lit "Memory allocation failed"]).
Proof.
  apply (hello_c_exit_discipline (ref_init input_256 heap_second_fails)).
  unfold max_input_len. cbn [ref_init rs_input]. unfold input_256.
  rewrite length_replicate. lia.
Defined.

(** ** The C example of [c-pdk] on any host *)

(** X15.  On any host the C example of [c-pdk] makes two calls,
    [extism_input_get] and [extism_output_set], and returns 0.  It never
    looks for JSON: its output is the greeting document for [World] when the
    input is empty and otherwise for the first 255 input bytes up to the
    first NUL byte.  The document has at most 278 bytes, so the 512-byte
    output buffer never cuts it. *)
Theorem hello_c_pdk_output (H : host) (s : hstate H) :
  let input := (answer H extism_input_get s).1 in
  let name := match input with
              | [] => lit "World"
              | _ :: _ => c_str (take 255 input)
              end in
  trace (run H HelloCPdk.hello s) =
    [Ev extism_input_get input; Ev (extism_output_set (greeting_json name)) tt] /\
  result (run H HelloCPdk.hello s) = Returned 0%Z /\
  List.length (greeting_json name) <= 278.
Proof.
  cbv zeta.
  destruct (run_hello_c_pdk H s) as (input & Hin & Htr & Hres).
  rewrite Hin, Htr, Hres.
  assert (Hname : c_str (match input with
                         | [] => lit "World" ++ [NUL]
                         | _ :: _ =>
                             take (Nat.min (List.length input) 255) input
                             ++ replicate (256 - Nat.min (List.length input) 255) NUL
                         end)
                  = match input with [] => lit "World" | _ :: _ => c_str (take 255 input) end).
  { destruct input as [|b input]; [reflexivity|].
    set (n := Nat.min (List.length (b :: input)) 255).
    replace (256 - n) with (S (255 - n)) by (subst n; lia).
    cbn [replicate]. rewrite c_str_app_nul. f_equal. subst n.
    destruct (Nat.le_ge_cases (List.length (b :: input)) 255).
    - rewrite Nat.min_l by done. by rewrite !take_ge by lia.
    - by rewrite Nat.min_r by done. }
  rewrite Hname.
  set (name := match input with [] => lit "World" | _ :: _ => c_str (take 255 input) end).
  assert (Hlen : List.length name <= 255).
  { subst name. destruct input; [simpl; lia|].
    etransitivity; [apply length_c_str|]. rewrite length_take. lia. }
  assert (Hnul : NUL ∉ name).
  { subst name. destruct input; [apply nul_free_literals|apply c_str_no_nul]. }
  rewrite c_str_snprintf by (by apply nul_free_greeting).
  rewrite take_ge by (rewrite length_greeting_json; lia).
  split; [reflexivity|]. split; [reflexivity|].
  rewrite length_greeting_json. lia.
Qed.

(** ** The allocation fallback of the C example *)

(** X16.  When the C example of [cpp-pdk] has found a finished [name]
    member but the allocation of the copy of the name fails, it falls back
    to [strdup("World")]: if that allocation succeeds the plugin greets
    [World] with status 0 although the input names someone else, and if it
    fails too the plugin reports [Memory allocation failed] and returns 1.
    The member is finished when the first quoted key [name], at index [i],
    is followed by a colon, the first such colon by a quote, and that quote
    by a second one; the input starts with [{], has no NUL byte and is short
    enough for [input_len + 1] not to wrap. *)
Theorem hello_c_allocation_fallback (s : ref_state) (i j k e : nat) :
  head (rs_input s) = Some "{"%char ->
  NUL ∉ rs_input s ->
  (Z.of_nat (List.length (rs_input s)) <= max_input_len)%Z ->
  find_first quoted_name (rs_input s) = Some i ->
  find_first [":"%char] (drop i (rs_input s)) = Some j ->
  find_first [dquote] (drop (i + j) (rs_input s)) = Some k ->
  find_first [dquote] (drop (i + j + k + 1) (rs_input s)) = Some e ->
  rs_heap s (rs_mallocs s) = true ->
  rs_heap s (S (rs_mallocs s)) = false ->
  (rs_heap s (S (S (rs_mallocs s))) = true ->
   output_of (trace (run ref_host HelloC.hello s)) = Some (greeting_json (lit "World")) /\
   result (run ref_host HelloC.hello s) = Returned 0%Z) /\
  (rs_heap s (S (S (rs_mallocs s))) = false ->
   outputs (trace (run ref_host HelloC.hello s)) = [] /\
   errors (trace (run ref_host HelloC.hello s)) = [lit "Memory allocation failed"] /\
   result (run ref_host HelloC.hello s) = Returned 1%Z).
Proof.
  intros Hhead Hnul _ Hi Hj Hk He Hheap1 Hheap2.
  assert (Hne : rs_input s <> []) by (intros Hnil; by rewrite Hnil in Hhead).
  assert (Hilen : i + 6 <= List.length (rs_input s)).
  { apply find_first_fits in Hi. simpl in Hi. lia. }
  assert (Hjlen : i + j < List.length (rs_input s)).
  { apply find_first_bound in Hj; [|done]. rewrite length_drop in Hj. lia. }
  assert (Hklen : i + j + k < List.length (rs_input s)).
  { apply find_first_bound in Hk; [|done]. rewrite length_drop in Hk. lia. }
  assert (Hq : find (rs_input s) quoted_name (Some 0) = Some i) by (by rewrite find_zero).
  assert (Hc : find (rs_input s) [":"%char] (Some i) = Some (i + j)).
  { rewrite find_from by lia. by rewrite Hj. }
  assert (Hd1 : find (rs_input s) [dquote] (Some (i + j)) = Some (i + j + k)).
  { rewrite find_from by lia. by rewrite Hk. }
  assert (Hd2 : find (rs_input s) [dquote] (Some (i + j + k + 1))
                = Some (i + j + k + 1 + e)).
  { rewrite find_from by lia. by rewrite He. }
  assert (Hname : forall third,
    rs_heap s (S (S (rs_mallocs s))) = third ->
    result (run ref_host (HelloC.name_of (List.length (rs_input s)) (rs_input s ++ [NUL]))
                (next_malloc s).2)
    = Returned (if third then Some (lit "World" ++ [NUL]) else None)).
  { intros third Hthird. unfold HelloC.name_of.
    rewrite !strstr_find by (done || lia). rewrite Hq.
    replace (Nat.ltb 2 (List.length (rs_input s))) with true
      by (symmetry; apply Nat.ltb_lt; lia).
    replace (nth 0 (rs_input s ++ [NUL]) NUL) with "{"%char
      by (destruct (rs_input s); [done|]; by injection Hhead as ->).
    cbn [Ascii.eqb Bool.eqb andb found].
    rewrite strchr_find, Hc by (done || lia).
    rewrite strchr_find, Hd1 by (done || lia).
    rewrite strchr_find, Hd2 by (done || lia).
    unfold HelloC.strdup.
    cbn [bind perform run after result answer ref_host ref_answer next_malloc fst snd
         rs_heap rs_mallocs].
    rewrite Hheap2.
    cbn [bind perform run after result answer ref_host ref_answer next_malloc fst snd
         rs_heap rs_mallocs].
    rewrite Hthird. by destruct third. }
  split; intros Hheap3.
  - destruct (run_hello_c_nonempty s (lit "World" ++ [NUL]) Hne Hheap1 (Hname true Hheap3))
      as [Hout Hres].
    split; [|exact Hres]. rewrite Hout. reflexivity.
  - pose proof (Hname false Hheap3) as Hnone.
    unfold HelloC.hello.
    rewrite run_bind, run_perform.
    cbn [result trace final answer ref_host ref_answer fst snd].
    rewrite run_bind, run_perform.
    cbn [result trace final answer ref_host ref_answer fst snd].
    destruct (Nat.eqb_spec (List.length (rs_input s)) 0) as [Hz|_]; [lia|].
    rewrite run_bind, run_perform.
    cbn [result trace final answer ref_host ref_answer fst snd next_malloc].
    rewrite Hheap1. cbn [negb].
    rewrite run_bind, run_perform.
    cbn [result trace final answer ref_host ref_answer fst snd].
    rewrite drop_0, firstn_all, vector_filled_exact.
    rewrite run_bind.
    change (RefState (rs_input s) (rs_vars s) (rs_config s) (rs_blocks s) (rs_next s)
              (rs_http s) (rs_status_code s) (rs_heap s) (S (rs_mallocs s)))
      with (next_malloc s).2.
    change (rs_input (next_malloc s).2) with (rs_input s).
    destruct (quiet_name_of ref_host (List.length (rs_input s)) (rs_input s ++ [NUL])
                (next_malloc s).2) as (Ho & He' & _).
    rewrite Hnone. cbn [result trace final].
    rewrite !outputs_app, !errors_app, Ho, He'.
    unfold HelloC.finish. cbn [bind perform run after trace result]. done.
Qed.

Lemma hello_c_allocation_fallback_witness :
  output_of (trace (run ref_host HelloC.hello (ref_init input_bob_spaced heap_second_fails)))
    = Some (greeting_json (lit "World")) /\
  result (run ref_host HelloC.hello (ref_init input_bob_spaced heap_second_fails))
    = Returned 0%Z.
Proof.
  destruct (hello_c_allocation_fallback (ref_init input_bob_spaced heap_second_fails)
              1 6 2 3) as [Hgood _];
    [reflexivity|compute_done|unfold max_input_len; simpl; lia
    |reflexivity|reflexivity|reflexivity|reflexivity|reflexivity|reflexivity|].
  apply Hgood. reflexivity.
Defined.
